(** * The scenario controller of the planning module

    A shallow embedding of [Scenario::Init] and [Scenario::Process]
    (modules/planning/scenarios/scenario.cc) together with the properties
    of the stage-sequencing state machine they implement.

    The controller owns at most one live [Stage] object, delegates one
    [Process] call per planning cycle to it and, when the stage reports
    [FINISHED], asks it for its successor and builds that successor through
    the factory method [CreateStage].  Stages, the factory, the trajectory
    point, the frame and the dependency injector are collaborators of the
    controller: they are kept abstract here, behind the two interfaces
    [StageInterface] and [ScenarioEnv]. *)

From Stdlib Require Import ZArith.
From stdpp Require Import base option list gmap.

#[local] Set Warnings "-clear-no-such-hyp".

(** ** Enumerations *)

(** [StageType] and [ScenarioType] are protobuf enumerations; only equality
    of tags matters to the controller. *)
Definition StageType : Type := nat.
Definition ScenarioType : Type := nat.

(** The reserved tag [StageType::NO_STAGE].  Its numeric value is fixed by the
    enumeration's declaration, so it is a parameter of the development. *)
Class StageTypeTags := { NO_STAGE : StageType }.

(** Return value of [Stage::Process].  The [switch] in [Scenario::Process]
    has a [default] branch, so values other than the three named ones are
    representable: [UNEXPECTED] stands for any such value. *)
Inductive StageStatus : Type :=
  | ERROR
  | RUNNING
  | FINISHED
  | UNEXPECTED (code : Z).

Inductive ScenarioStatus : Type :=
  | STATUS_UNKNOWN
  | STATUS_PROCESSING
  | STATUS_DONE.

#[global] Instance StageStatus_eq_dec : EqDecision StageStatus.
Proof. solve_decision. Defined.

#[global] Instance ScenarioStatus_eq_dec : EqDecision ScenarioStatus.
Proof. solve_decision. Defined.

(** ** Collaborator interfaces *)

(** What the controller uses of a [Stage]: [stage_type()], [NextStage()] and
    [Process(planning_init_point, frame)].  [Process] may change the stage
    object and the frame it is handed, so both are returned.  ([Name()] is
    only used in log messages.) *)
Class StageInterface (Stage TrajectoryPoint Frame : Type) := {
  stage_type : Stage → StageType;
  NextStage : Stage → StageType;
  Stage_Process : Stage → TrajectoryPoint → Frame → StageStatus * Stage * Frame
}.

(** What the controller uses of its surroundings: the [stage_type()] accessor
    of a stage configuration block, the factory method [CreateStage] (whose
    result may be a null pointer, [None]) and the write of the scenario type
    into the planning context reached through the injector
    ([scenario->Clear(); scenario->set_scenario_type(...)]). *)
Class ScenarioEnv (StageConfig Stage Injector : Type) := {
  config_stage_type : StageConfig → StageType;
  CreateStage : StageConfig → Injector → option Stage;
  set_scenario_type : ScenarioType → Injector → Injector
}.

(** ** Data model *)

Section DataModel.
Context {StageConfig Stage Injector : Type}.

(** [ScenarioConfig]: the scenario type, the declared stage types
    ([stage_type], in order) and the configuration blocks ([stage_config]). *)
Record ScenarioConfig : Type := mkScenarioConfig {
  scenario_type : ScenarioType;
  stage_type_list : list StageType;
  stage_config : list StageConfig
}.

(** A live stage object held by [current_stage_].  [inst_id] identifies the
    object: it is the number of the factory call that built it, so that a
    replaced instance can be told from one that was mutated in place. *)
Record Instance : Type := mkInstance {
  inst_id : nat;
  inst_obj : Stage
}.

(** Calls the controller makes to its collaborators, in the order made. *)
Inductive Event : Type :=
  | EvCreateStage (c : StageConfig)
  | EvStageProcess (id : nat).

(** The members of [Scenario] that [Init] and [Process] read or write.
    [stage_config_map_] maps a stage type to the configuration block it
    points to; [current_stage_ = None] is the null pointer.  [events_] is
    instrumentation: the collaborator calls made so far. *)
Record Scenario : Type := mkScenario {
  config_ : ScenarioConfig;
  injector_ : Injector;
  stage_config_map_ : gmap StageType StageConfig;
  current_stage_ : option Instance;
  scenario_status_ : ScenarioStatus;
  events_ : list Event
}.

(** Outcome of [Init]: the [ACHECK]s abort the process. *)
Inductive FatalError : Type :=
  | FatalNoStageTypes
  | FatalNoConfig (t : StageType).

Inductive InitResult : Type :=
  | InitFatal (e : FatalError)
  | InitOk (s : Scenario).

Definition set_injector (i : Injector) (s : Scenario) : Scenario :=
  mkScenario (config_ s) i (stage_config_map_ s) (current_stage_ s)
             (scenario_status_ s) (events_ s).

Definition set_stage_config_map (m : gmap StageType StageConfig)
    (s : Scenario) : Scenario :=
  mkScenario (config_ s) (injector_ s) m (current_stage_ s)
             (scenario_status_ s) (events_ s).

Definition set_current_stage (c : option Instance) (s : Scenario) : Scenario :=
  mkScenario (config_ s) (injector_ s) (stage_config_map_ s) c
             (scenario_status_ s) (events_ s).

Definition set_scenario_status (st : ScenarioStatus) (s : Scenario) : Scenario :=
  mkScenario (config_ s) (injector_ s) (stage_config_map_ s) (current_stage_ s)
             st (events_ s).

Definition log_event (e : Event) (s : Scenario) : Scenario :=
  mkScenario (config_ s) (injector_ s) (stage_config_map_ s) (current_stage_ s)
             (scenario_status_ s) (events_ s ++ [e]).

(** The configurations the factory was called with, oldest first. *)
Fixpoint factory_calls (l : list Event) : list StageConfig :=
  match l with
  | [] => []
  | EvCreateStage c :: l' => c :: factory_calls l'
  | EvStageProcess _ :: l' => factory_calls l'
  end.

(** The instances whose [Process] was called, oldest first. *)
Fixpoint stage_calls (l : list Event) : list nat :=
  match l with
  | [] => []
  | EvCreateStage _ :: l' => stage_calls l'
  | EvStageProcess i :: l' => i :: stage_calls l'
  end.

(** The constructor: [config_] and [injector_] are copied, the other
    members are default-initialised. *)
Definition Scenario_new (config : ScenarioConfig) (injector : Injector) : Scenario :=
  mkScenario config injector ∅ None STATUS_UNKNOWN [].
End DataModel.

Arguments ScenarioConfig : clear implicits.
Arguments Instance : clear implicits.
Arguments Event : clear implicits.
Arguments Scenario : clear implicits.
Arguments FatalError : clear implicits.
Arguments InitResult : clear implicits.

(** ** The controller *)

Section Controller.
Context {StageConfig Stage Injector TrajectoryPoint Frame : Type}.
Context `{!StageTypeTags}.
Context `{!StageInterface Stage TrajectoryPoint Frame}.
Context `{!ScenarioEnv StageConfig Stage Injector}.

#[local] Notation "'Scenario'" := (Scenario StageConfig Stage Injector).
#[local] Notation "'InitResult'" := (InitResult StageConfig Stage Injector).

(** First loop of [Init]:
    [stage_config_map_[stage_config.stage_type()] = &stage_config],
    a later block of the same type overwriting an earlier one. *)
Definition build_stage_config_map (m : gmap StageType StageConfig)
    (blocks : list StageConfig) : gmap StageType StageConfig :=
  fold_left (λ acc c, <[config_stage_type c := c]> acc) blocks m.

(** Second loop of [Init]: the first declared stage type, if any, for which
    [ContainsKey] fails. *)
Fixpoint first_missing_config (m : gmap StageType StageConfig)
    (declared : list StageType) : option StageType :=
  match declared with
  | [] => None
  | t :: rest =>
      match m !! t with
      | Some _ => first_missing_config m rest
      | None => Some t
      end
  end.

(** [current_stage_ = CreateStage(config, injector_)]: one factory call,
    whose result, usable or null, overwrites the handle. *)
Definition create_stage (c : StageConfig) (s : Scenario) : Scenario :=
  let id := length (factory_calls (events_ s)) in
  let made := mkInstance id <$> CreateStage c (injector_ s) in
  log_event (EvCreateStage c) (set_current_stage made s).

(** [Scenario::Init].  The first [ACHECK] rejects an empty list of declared
    stage types; then the scenario type is written to the planning context,
    the index is filled, the second [ACHECK] rejects the first declared type
    without an index entry, and the entry stage is built from the block
    indexed under the first declared type.  (That lookup cannot fail once
    the second check has passed; see [Init_covered].) *)
Definition Init (s : Scenario) : InitResult :=
  match stage_type_list (config_ s) with
  | [] => InitFatal FatalNoStageTypes
  | first :: _ =>
      let s1 :=
        set_injector
          (set_scenario_type (scenario_type (config_ s)) (injector_ s)) s in
      let s2 :=
        set_stage_config_map
          (build_stage_config_map (stage_config_map_ s1)
                                  (stage_config (config_ s1))) s1 in
      match first_missing_config (stage_config_map_ s2)
                                 (stage_type_list (config_ s2)) with
      | Some t => InitFatal (FatalNoConfig t)
      | None =>
          match stage_config_map_ s2 !! first with
          | Some c => InitOk (create_stage c s2)
          | None => InitFatal (FatalNoConfig first)
          end
      end
  end.

(** The injector and the index [Init] leaves behind, and the controller just
    before [Init] builds the entry stage. *)
Definition injector_after_Init (c : Scenario) : Injector :=
  set_scenario_type (scenario_type (config_ c)) (injector_ c).

Definition index_after_Init (c : Scenario) : gmap StageType StageConfig :=
  build_stage_config_map (stage_config_map_ c) (stage_config (config_ c)).

Definition before_entry_stage (c : Scenario) : Scenario :=
  set_stage_config_map (index_after_Init c) (set_injector (injector_after_Init c) c).

(** Lines 110-115: the status after a [FINISHED] stage that did not leave
    the function early. *)
Definition settle_finished (s : Scenario) : ScenarioStatus * Scenario :=
  match current_stage_ s with
  | Some h =>
      if decide (stage_type (inst_obj h) = NO_STAGE)
      then (STATUS_DONE, set_scenario_status STATUS_DONE s)
      else (STATUS_PROCESSING, set_scenario_status STATUS_PROCESSING s)
  | None => (STATUS_DONE, set_scenario_status STATUS_DONE s)
  end.

(** The [FINISHED] case of the [switch]; [h] is the object [current_stage_]
    points to when the case is entered. *)
Definition on_finished (h : Instance Stage) (s : Scenario)
    : ScenarioStatus * Scenario :=
  let next_stage := NextStage (inst_obj h) in
  if decide (next_stage ≠ stage_type (inst_obj h)) then
    if decide (next_stage = NO_STAGE) then
      (STATUS_DONE, set_scenario_status STATUS_DONE s)
    else
      match stage_config_map_ s !! next_stage with
      | None => (STATUS_UNKNOWN, set_scenario_status STATUS_UNKNOWN s)
      | Some c =>
          let s' := create_stage c s in
          match current_stage_ s' with
          | None => (STATUS_UNKNOWN, s')
          | Some _ => settle_finished s'
          end
      end
  else settle_finished s.

(** The controller once [current_stage_->Process(...)] has returned: the
    call is on record and the handle points to the same object, which the
    call may have changed; [h] is that object afterwards. *)
Definition stage_called (h : Instance Stage) (s : Scenario) : Scenario :=
  log_event (EvStageProcess (inst_id h)) (set_current_stage (Some h) s).

(** [Scenario::Process].  The two early returns on the handle come first; a
    null handle returns [STATUS_UNKNOWN] without touching [scenario_status_],
    as does a failed construction in [on_finished]. *)
Definition Process (s : Scenario) (planning_init_point : TrajectoryPoint)
    (frame : Frame) : ScenarioStatus * Scenario * Frame :=
  match current_stage_ s with
  | None => (STATUS_UNKNOWN, s, frame)
  | Some h =>
      if decide (stage_type (inst_obj h) = NO_STAGE) then
        (STATUS_DONE, set_scenario_status STATUS_DONE s, frame)
      else
        let '(ret, obj', frame') :=
          Stage_Process (inst_obj h) planning_init_point frame in
        let h' := mkInstance (inst_id h) obj' in
        let s1 := stage_called h' s in
        match ret with
        | ERROR => (STATUS_UNKNOWN, set_scenario_status STATUS_UNKNOWN s1, frame')
        | RUNNING =>
            (STATUS_PROCESSING, set_scenario_status STATUS_PROCESSING s1, frame')
        | FINISHED => (on_finished h' s1, frame')
        | UNEXPECTED _ =>
            (STATUS_UNKNOWN, set_scenario_status STATUS_UNKNOWN s1, frame')
        end
  end.

(** *** The planning loop as seen by the controller

    One [Process] call per cycle, each with that cycle's trajectory point
    and frame. *)
Definition Cycle : Type := TrajectoryPoint * Frame.

Definition step (s : Scenario) (i : Cycle) : ScenarioStatus * Scenario :=
  (Process s i.1 i.2).1.

Fixpoint run (s : Scenario) (inputs : list Cycle) : list (ScenarioStatus * Scenario) :=
  match inputs with
  | [] => []
  | i :: rest => step s i :: run (step s i).2 rest
  end.

Definition final (s : Scenario) (inputs : list Cycle) : Scenario :=
  fold_left (λ acc i, (step acc i).2) inputs s.

Definition statuses (s : Scenario) (inputs : list Cycle) : list ScenarioStatus :=
  (run s inputs).*1.

(** The type of the stage the controller is in, if it holds one. *)
Definition current_type (s : Scenario) : option StageType :=
  (λ h, stage_type (inst_obj h)) <$> current_stage_ s.

Definition visited (s : Scenario) (inputs : list Cycle) : list (option StageType) :=
  (λ r, current_type r.2) <$> run s inputs.

(** What a stage object answers when it alone is driven through the given
    cycles: for each call the returned status and the object afterwards. *)
Fixpoint stage_replies (obj : Stage) (inputs : list Cycle)
    : list (StageStatus * Stage) :=
  match inputs with
  | [] => []
  | i :: rest =>
      let r := (Stage_Process obj i.1 i.2).1 in
      r :: stage_replies r.2 rest
  end.

(** What a stage tells the controller in one cycle: the status its
    [Process] returns, its [stage_type()] afterwards and, when the status is
    [FINISHED], its [NextStage()], the only case in which the controller
    asks for it. *)
Definition Answer : Type := (StageStatus * StageType * option StageType)%type.

(** The answer the current stage gives in a cycle started from [s]; [None]
    when [Process] returns before calling the stage. *)
Definition answer_of (s : Scenario) (i : Cycle) : option Answer :=
  match current_stage_ s with
  | None => None
  | Some h =>
      if decide (stage_type (inst_obj h) = NO_STAGE) then None
      else
        let r := (Stage_Process (inst_obj h) i.1 i.2).1 in
        Some (r.1, stage_type r.2,
              match r.1 with
              | FINISHED => Some (NextStage r.2)
              | _ => None
              end)
  end.

(** The answers the controller receives over a sequence of cycles. *)
Fixpoint answers (s : Scenario) (inputs : list Cycle) : list (option Answer) :=
  match inputs with
  | [] => []
  | i :: rest => answer_of s i :: answers (step s i).2 rest
  end.

(** Two controllers with the same configuration, injector and index whose
    current stages, if any, have the same type.  The stage objects
    themselves, the recorded status and the recorded calls may differ. *)
Definition same_stage_type (s1 s2 : Scenario) : Prop :=
  config_ s1 = config_ s2
  ∧ injector_ s1 = injector_ s2
  ∧ stage_config_map_ s1 = stage_config_map_ s2
  ∧ current_type s1 = current_type s2.

(** The block the first loop of [Init] leaves under type [t] when it starts
    from an index without that key: the last block of that type. *)
Definition last_block_of_type (t : StageType) (blocks : list StageConfig)
    : option StageConfig :=
  last (filter (λ b, config_stage_type b = t) blocks).

(** Collaborators that behave as the stage classes of the planning module
    do: the factory builds a stage of the type of the block it is given, and
    a stage's [Process] does not change the stage's type. *)
Definition factory_respects_type : Prop :=
  ∀ (b : StageConfig) (inj : Injector) (obj : Stage),
    CreateStage b inj = Some obj → stage_type obj = config_stage_type b.

Definition stages_keep_type : Prop :=
  ∀ (obj : Stage) (pt : TrajectoryPoint) (fr : Frame),
    stage_type (Stage_Process obj pt fr).1.2 = stage_type obj.

(** Every entry of the index is stored under its own stage type. *)
Definition index_keyed (s : Scenario) : Prop :=
  ∀ t b, stage_config_map_ s !! t = Some b → config_stage_type b = t.

(** The stage the controller holds, if any, has an entry in the index. *)
Definition current_stage_configured (s : Scenario) : Prop :=
  ∀ h, current_stage_ s = Some h →
       is_Some (stage_config_map_ s !! stage_type (inst_obj h)).
End Controller.

(** Case analysis on the control flow of one [Process] call: every test the
    call makes is decided, and the projections of the resulting state are
    evaluated. *)
Ltac Process_paths :=
  unfold Process, on_finished, settle_finished;
  repeat (case_match || case_decide);
  simplify_eq; cbn [fst snd] in *.

(** ** A scripted stage and factory

    A test double for the collaborators, used to run the controller on
    concrete inputs.  A scripted stage has a fixed type; each cycle's frame
    carries the status the stage is to return and the successor it is to
    announce.  The scripted factory builds a stage of the configured type,
    or fails when the configuration block says so. *)

Module Scripted.

Record stage : Type := mkStage {
  ty : StageType;
  announced : StageType
}.

Record block : Type := mkBlock {
  block_type : StageType;
  buildable : bool
}.

Definition script : Type := (StageStatus * StageType)%type.

Definition process (st : stage) (_ : unit) (fr : script)
    : StageStatus * stage * script :=
  (fr.1, mkStage (ty st) fr.2, fr).

Definition create (b : block) (_ : option ScenarioType) : option stage :=
  if buildable b then Some (mkStage (block_type b) (block_type b)) else None.

#[global] Instance tags : StageTypeTags := {| NO_STAGE := 0 |}.

#[global] Instance stages : StageInterface stage unit script :=
  {| stage_type := ty; NextStage := announced; Stage_Process := process |}.

#[global] Instance env : ScenarioEnv block stage (option ScenarioType) :=
  {| config_stage_type := block_type;
     CreateStage := create;
     set_scenario_type := λ t _, Some t |}.

(** Stage types used in the examples. *)
Definition X : StageType := 1.
Definition Y : StageType := 2.
Definition Z : StageType := 3.

Definition reply (r : StageStatus) (next : StageType) : unit * script :=
  (tt, (r, next)).

(** Declared stages [X, Y], both configured and buildable. *)
Definition config_XY : ScenarioConfig block :=
  mkScenarioConfig 7 [X; Y] [mkBlock X true; mkBlock Y true].

(** Declared stage [X] only, with a further block for [Y]. *)
Definition config_X_extra : ScenarioConfig block :=
  mkScenarioConfig 7 [X] [mkBlock X true; mkBlock Y true].

(** Declared stages [X, Z], with no block for [Z]. *)
Definition config_XZ : ScenarioConfig block :=
  mkScenarioConfig 7 [X; Z] [mkBlock X true].

(** No declared stage. *)
Definition config_empty : ScenarioConfig block :=
  mkScenarioConfig 7 [] [mkBlock X true].

(** The entry stage cannot be built. *)
Definition config_unbuildable : ScenarioConfig block :=
  mkScenarioConfig 7 [X] [mkBlock X false].

(** The entry stage can be built, its successor [Y] cannot. *)
Definition config_Y_unbuildable : ScenarioConfig block :=
  mkScenarioConfig 7 [X; Y] [mkBlock X true; mkBlock Y false].

(** The entry stage has the sentinel type. *)
Definition config_sentinel : ScenarioConfig block :=
  mkScenarioConfig 7 [0] [mkBlock 0 true].

(** Two blocks for [X], the first of which cannot be built. *)
Definition config_X_twice : ScenarioConfig block :=
  mkScenarioConfig 7 [X] [mkBlock X false; mkBlock Y true; mkBlock X true].

(** Declared stages [X, Z, Y]; neither [Z] nor [Y] is configured. *)
Definition config_XZY : ScenarioConfig block :=
  mkScenarioConfig 7 [X; Z; Y] [mkBlock X true].

Definition fresh (c : ScenarioConfig block) : Scenario block stage (option ScenarioType) :=
  Scenario_new c None.

(** The controller state after a successful [Init]; the fresh state stands in
    where [Init] is fatal. *)
Definition started (c : ScenarioConfig block) : Scenario block stage (option ScenarioType) :=
  match Init (fresh c) with
  | InitOk s => s
  | InitFatal _ => fresh c
  end.

(** A controller that has lost its stage: the entry stage [X] has finished
    and its successor [Y] could not be built. *)
Definition lost_handle : Scenario block stage (option ScenarioType) :=
  (Process (started config_Y_unbuildable) tt (FINISHED, Y)).1.2.

End Scripted.

(** ** Properties of the controller *)

Section Properties.
Context {StageConfig Stage Injector TrajectoryPoint Frame : Type}.
Context `{!StageTypeTags}.
Context `{!StageInterface Stage TrajectoryPoint Frame}.
Context `{!ScenarioEnv StageConfig Stage Injector}.

#[local] Notation "'Scenario'" := (Scenario StageConfig Stage Injector).
#[local] Notation "'Cycle'" := (@Cycle TrajectoryPoint Frame).

Implicit Types (s c : Scenario) (h : Instance Stage) (m : gmap StageType StageConfig).
Implicit Types (blocks : list StageConfig) (declared : list StageType).
Implicit Types (inputs : list Cycle) (t : StageType).

(** *** The stage-configuration index *)

Lemma build_stage_config_map_cons m b blocks :
  build_stage_config_map m (b :: blocks)
  = build_stage_config_map (<[config_stage_type b := b]> m) blocks.
Proof. reflexivity. Qed.

Lemma build_stage_config_map_dom m blocks :
  dom (build_stage_config_map m blocks)
  = dom m ∪ list_to_set (config_stage_type <$> blocks).
Proof.
  revert m. induction blocks as [|b blocks IH]; intros m.
  - cbn. set_solver.
  - rewrite build_stage_config_map_cons, IH, dom_insert_L. cbn. set_solver.
Qed.

Lemma build_stage_config_map_lookup m blocks t b :
  build_stage_config_map m blocks !! t = Some b →
  m !! t = Some b ∨ (b ∈ blocks ∧ config_stage_type b = t).
Proof.
  revert m. induction blocks as [|b0 blocks IH]; intros m Hl.
  - left. exact Hl.
  - rewrite build_stage_config_map_cons in Hl.
    destruct (IH _ Hl) as [Hm | [Hin Hty]].
    + destruct (decide (config_stage_type b0 = t)) as [<- | Hne].
      * rewrite lookup_insert_eq in Hm. injection Hm as <-.
        right. split; [left | reflexivity].
      * rewrite lookup_insert_ne in Hm by exact Hne. left. exact Hm.
    + right. split; [right; exact Hin | exact Hty].
Qed.

Lemma first_missing_config_None m declared :
  first_missing_config m declared = None ↔ Forall (λ t, is_Some (m !! t)) declared.
Proof.
  induction declared as [|t declared IH]; cbn.
  - split; [constructor | reflexivity].
  - destruct (m !! t) as [b|] eqn:Hl.
    + rewrite IH. split.
      * intros Hall. apply Forall_cons. split; [rewrite Hl; eexists; reflexivity | exact Hall].
      * intros Hall. apply Forall_cons in Hall as [_ Hall]. exact Hall.
    + split; [discriminate |].
      intros Hall. apply Forall_cons in Hall as [[b Hb] _]. congruence.
Qed.

Lemma first_missing_config_Some m declared t :
  first_missing_config m declared = Some t → t ∈ declared ∧ m !! t = None.
Proof.
  induction declared as [|t0 declared IH]; cbn; [discriminate |].
  destruct (m !! t0) as [b|] eqn:Hl.
  - intros Hm. destruct (IH Hm) as [Hin Hnone]. split; [right; exact Hin | exact Hnone].
  - intros [= <-]. split; [left | exact Hl].
Qed.

(** *** [Init] *)

Lemma Init_empty c :
  stage_type_list (config_ c) = [] → Init c = InitFatal FatalNoStageTypes.
Proof. intros Hd. unfold Init. rewrite Hd. reflexivity. Qed.

Lemma Init_covered c first rest :
  stage_type_list (config_ c) = first :: rest →
  Forall (λ t, is_Some (index_after_Init c !! t)) (first :: rest) →
  ∃ b, index_after_Init c !! first = Some b
       ∧ Init c = InitOk (create_stage b (before_entry_stage c)).
Proof.
  intros Hd Hall. unfold Init. rewrite Hd. cbn -[first_missing_config].
  fold (index_after_Init c). fold (injector_after_Init c).
  rewrite Hd.
  apply first_missing_config_None in Hall as Hnone. rewrite Hnone.
  apply Forall_cons in Hall as [[b Hb] _].
  exists b. split; [exact Hb |]. rewrite Hb. reflexivity.
Qed.

Lemma Init_uncovered c t :
  first_missing_config (index_after_Init c) (stage_type_list (config_ c)) = Some t →
  Init c = InitFatal (FatalNoConfig t).
Proof.
  intros Hm. unfold Init.
  destruct (stage_type_list (config_ c)) as [|first rest] eqn:Hd; [discriminate |].
  cbn -[first_missing_config].
  fold (index_after_Init c). rewrite Hd, Hm. reflexivity.
Qed.

Lemma Init_ok_inv c s :
  Init c = InitOk s →
  ∃ first rest b,
    stage_type_list (config_ c) = first :: rest
    ∧ Forall (λ t, is_Some (index_after_Init c !! t)) (first :: rest)
    ∧ index_after_Init c !! first = Some b
    ∧ s = create_stage b (before_entry_stage c).
Proof.
  intros Hi.
  destruct (stage_type_list (config_ c)) as [|first rest] eqn:Hd.
  - rewrite Init_empty in Hi by exact Hd. discriminate.
  - destruct (first_missing_config (index_after_Init c) (first :: rest)) as [t|] eqn:Hm.
    + rewrite (Init_uncovered c t) in Hi by (rewrite Hd; exact Hm). discriminate.
    + apply first_missing_config_None in Hm.
      destruct (Init_covered c first rest Hd Hm) as [b [Hb Hok]].
      rewrite Hok in Hi. injection Hi as <-.
      exists first, rest, b. repeat split; assumption.
Qed.

(** *** One [Process] call *)

Lemma factory_calls_app (l1 l2 : list (Event StageConfig)) :
  factory_calls (l1 ++ l2) = factory_calls l1 ++ factory_calls l2.
Proof.
  induction l1 as [|[b|i] l1 IH]; cbn; [reflexivity | rewrite IH; reflexivity | exact IH].
Qed.

Lemma stage_calls_app (l1 l2 : list (Event StageConfig)) :
  stage_calls (l1 ++ l2) = stage_calls l1 ++ stage_calls l2.
Proof.
  induction l1 as [|[b|i] l1 IH]; cbn; [reflexivity | exact IH | rewrite IH; reflexivity].
Qed.

Lemma Process_absent s pt fr :
  current_stage_ s = None → Process s pt fr = (STATUS_UNKNOWN, s, fr).
Proof. intros Hc. unfold Process. rewrite Hc. reflexivity. Qed.

Lemma Process_sentinel s h pt fr :
  current_stage_ s = Some h →
  stage_type (inst_obj h) = NO_STAGE →
  Process s pt fr = (STATUS_DONE, set_scenario_status STATUS_DONE s, fr).
Proof.
  intros Hc Hty. unfold Process. rewrite Hc.
  destruct (decide (stage_type (inst_obj h) = NO_STAGE)); [reflexivity | contradiction].
Qed.

(** The result of a call that reaches the [switch], in terms of what the
    stage returned. *)
Lemma Process_delegated s h pt fr ret obj' fr' :
  current_stage_ s = Some h →
  stage_type (inst_obj h) ≠ NO_STAGE →
  Stage_Process (inst_obj h) pt fr = (ret, obj', fr') →
  Process s pt fr =
    let h' := mkInstance (inst_id h) obj' in
    let s1 := stage_called h' s in
    match ret with
    | RUNNING => (STATUS_PROCESSING, set_scenario_status STATUS_PROCESSING s1, fr')
    | FINISHED => (on_finished h' s1, fr')
    | ERROR | UNEXPECTED _ =>
        (STATUS_UNKNOWN, set_scenario_status STATUS_UNKNOWN s1, fr')
    end.
Proof.
  intros Hc Hty Hp. unfold Process. rewrite Hc.
  destruct (decide (stage_type (inst_obj h) = NO_STAGE)); [contradiction |].
  rewrite Hp. destruct ret; reflexivity.
Qed.

Lemma stage_called_factory_calls h s :
  factory_calls (events_ (stage_called h s)) = factory_calls (events_ s).
Proof. cbn. rewrite factory_calls_app. cbn. apply app_nil_r. Qed.

Lemma stage_called_stage_calls h s :
  stage_calls (events_ (stage_called h s)) = stage_calls (events_ s) ++ [inst_id h].
Proof. cbn. rewrite stage_calls_app. reflexivity. Qed.

Lemma create_stage_factory_calls b s :
  factory_calls (events_ (create_stage b s)) = factory_calls (events_ s) ++ [b].
Proof. cbn. rewrite factory_calls_app. reflexivity. Qed.

Lemma create_stage_stage_calls b s :
  stage_calls (events_ (create_stage b s)) = stage_calls (events_ s).
Proof. cbn. rewrite stage_calls_app. cbn. apply app_nil_r. Qed.

Lemma settle_finished_live s h :
  current_stage_ s = Some h →
  stage_type (inst_obj h) ≠ NO_STAGE →
  settle_finished s = (STATUS_PROCESSING, set_scenario_status STATUS_PROCESSING s).
Proof.
  intros Hc Hty. unfold settle_finished. rewrite Hc.
  destruct (decide (stage_type (inst_obj h) = NO_STAGE)); [contradiction | reflexivity].
Qed.

Lemma settle_finished_stage_calls s :
  stage_calls (events_ (settle_finished s).2) = stage_calls (events_ s).
Proof.
  unfold settle_finished. destruct (current_stage_ s) as [h|]; [case_decide |]; reflexivity.
Qed.

Lemma on_finished_stage_calls h s :
  stage_calls (events_ (on_finished h s).2) = stage_calls (events_ s).
Proof.
  unfold on_finished. repeat case_decide; try reflexivity.
  - destruct (stage_config_map_ s !! NextStage (inst_obj h)) as [b|]; [| reflexivity].
    destruct (current_stage_ (create_stage b s)).
    + rewrite settle_finished_stage_calls. apply create_stage_stage_calls.
    + apply create_stage_stage_calls.
  - apply settle_finished_stage_calls.
Qed.

(** Every call that reaches the [switch] makes exactly one call to the
    current stage's [Process]. *)
Lemma Process_delegated_stage_calls s h pt fr :
  current_stage_ s = Some h →
  stage_type (inst_obj h) ≠ NO_STAGE →
  stage_calls (events_ (Process s pt fr).1.2) = stage_calls (events_ s) ++ [inst_id h].
Proof.
  intros Hc Hty.
  destruct (Stage_Process (inst_obj h) pt fr) as [[ret obj'] fr'] eqn:Hp.
  rewrite (Process_delegated s h pt fr ret obj' fr' Hc Hty Hp). cbn zeta.
  destruct ret; cbn [fst snd];
    rewrite ?on_finished_stage_calls;
    apply (stage_called_stage_calls (mkInstance (inst_id h) obj')).
Qed.

(** The four ways out of the [FINISHED] case. *)
Lemma on_finished_self h s :
  NextStage (inst_obj h) = stage_type (inst_obj h) →
  on_finished h s = settle_finished s.
Proof. intros He. unfold on_finished. case_decide; [contradiction | reflexivity]. Qed.

Lemma on_finished_sentinel h s :
  NextStage (inst_obj h) ≠ stage_type (inst_obj h) →
  NextStage (inst_obj h) = NO_STAGE →
  on_finished h s = (STATUS_DONE, set_scenario_status STATUS_DONE s).
Proof.
  intros Hne Hs. unfold on_finished.
  case_decide; [| contradiction]. case_decide; [reflexivity | contradiction].
Qed.

Lemma on_finished_no_config h s :
  NextStage (inst_obj h) ≠ stage_type (inst_obj h) →
  NextStage (inst_obj h) ≠ NO_STAGE →
  stage_config_map_ s !! NextStage (inst_obj h) = None →
  on_finished h s = (STATUS_UNKNOWN, set_scenario_status STATUS_UNKNOWN s).
Proof.
  intros Hne Hs Hl. unfold on_finished.
  case_decide; [| contradiction]. case_decide; [contradiction |].
  rewrite Hl. reflexivity.
Qed.

Lemma on_finished_create h s b :
  NextStage (inst_obj h) ≠ stage_type (inst_obj h) →
  NextStage (inst_obj h) ≠ NO_STAGE →
  stage_config_map_ s !! NextStage (inst_obj h) = Some b →
  on_finished h s =
    match CreateStage b (injector_ s) with
    | None => (STATUS_UNKNOWN, create_stage b s)
    | Some _ => settle_finished (create_stage b s)
    end.
Proof.
  intros Hne Hs Hl. unfold on_finished.
  case_decide; [| contradiction]. case_decide; [contradiction |].
  rewrite Hl. cbn zeta.
  destruct (CreateStage b (injector_ s)) as [fresh|] eqn:Hf.
  - replace (current_stage_ (create_stage b s))
      with (Some (mkInstance (length (factory_calls (events_ s))) fresh));
      [reflexivity |].
    cbn. rewrite Hf. reflexivity.
  - replace (current_stage_ (create_stage b s)) with (@None (Instance Stage));
      [reflexivity |].
    cbn. rewrite Hf. reflexivity.
Qed.

(** C8: when the current stage's [Process] returns [ERROR], the call returns
    [STATUS_UNKNOWN]; the handle still points to the same stage object (as
    the stage's own call left it), the factory is not invoked, the index and
    the configuration are untouched, and the controller goes on: the next
    [Process] call is delegated to that same stage again. *)
Theorem Process_stage_error s h pt fr obj' fr' :
  current_stage_ s = Some h →
  stage_type (inst_obj h) ≠ NO_STAGE →
  Stage_Process (inst_obj h) pt fr = (ERROR, obj', fr') →
  ∃ s', Process s pt fr = (STATUS_UNKNOWN, s', fr')
        ∧ current_stage_ s' = Some (mkInstance (inst_id h) obj')
        ∧ scenario_status_ s' = STATUS_UNKNOWN
        ∧ factory_calls (events_ s') = factory_calls (events_ s)
        ∧ stage_config_map_ s' = stage_config_map_ s
        ∧ config_ s' = config_ s
        ∧ (stage_type obj' ≠ NO_STAGE →
           ∀ pt2 fr2,
             stage_calls (events_ (Process s' pt2 fr2).1.2)
             = stage_calls (events_ s') ++ [inst_id h]).
Proof.
  intros Hc Hty Hp.
  rewrite (Process_delegated s h pt fr ERROR obj' fr' Hc Hty Hp). cbn zeta.
  eexists. split; [reflexivity |].
  repeat split.
  - apply stage_called_factory_calls.
  - intros Hty' pt2 fr2. apply (Process_delegated_stage_calls _ (mkInstance (inst_id h) obj'));
      [reflexivity | exact Hty'].
Qed.

(** C4: when the current stage returns [FINISHED] and announces a successor
    that is not the sentinel and has no entry in the index, the call returns
    [STATUS_UNKNOWN], the factory is not invoked and the handle still points
    to the same stage object.  The current stage is one of the configured
    stages: its own type has an entry in the index. *)
Theorem Process_unknown_successor s h pt fr obj' fr' :
  current_stage_ s = Some h →
  stage_type (inst_obj h) ≠ NO_STAGE →
  Stage_Process (inst_obj h) pt fr = (FINISHED, obj', fr') →
  is_Some (stage_config_map_ s !! stage_type obj') →
  NextStage obj' ≠ NO_STAGE →
  stage_config_map_ s !! NextStage obj' = None →
  ∃ s', Process s pt fr = (STATUS_UNKNOWN, s', fr')
        ∧ current_stage_ s' = Some (mkInstance (inst_id h) obj')
        ∧ factory_calls (events_ s') = factory_calls (events_ s)
        ∧ scenario_status_ s' = STATUS_UNKNOWN.
Proof.
  intros Hc Hty Hp [b Hown] Hns Hnone.
  assert (Hne : NextStage obj' ≠ stage_type obj') by congruence.
  rewrite (Process_delegated s h pt fr FINISHED obj' fr' Hc Hty Hp). cbn zeta.
  rewrite on_finished_no_config by assumption.
  eexists. split; [reflexivity |].
  repeat split. apply stage_called_factory_calls.
Qed.

(** C5: a transition to a successor other than the stage itself and other
    than the sentinel ends in one of three ways.  Without a configuration
    for the successor the call returns [STATUS_UNKNOWN], the factory is not
    invoked and the old instance remains.  With a configuration the factory
    is invoked once on it: if it yields no instance the call returns
    [STATUS_UNKNOWN] and the handle is empty; if it yields an instance, that
    instance, exactly as the factory returned it, is the new current stage.
    The handle never holds anything else. *)
Theorem Process_transition_outcomes s h pt fr obj' fr' :
  current_stage_ s = Some h →
  stage_type (inst_obj h) ≠ NO_STAGE →
  Stage_Process (inst_obj h) pt fr = (FINISHED, obj', fr') →
  NextStage obj' ≠ stage_type obj' →
  NextStage obj' ≠ NO_STAGE →
  ∃ st s',
    Process s pt fr = (st, s', fr')
    ∧ (stage_config_map_ s !! NextStage obj' = None →
       st = STATUS_UNKNOWN
       ∧ current_stage_ s' = Some (mkInstance (inst_id h) obj')
       ∧ factory_calls (events_ s') = factory_calls (events_ s))
    ∧ (∀ b, stage_config_map_ s !! NextStage obj' = Some b →
         CreateStage b (injector_ s) = None →
         st = STATUS_UNKNOWN
         ∧ current_stage_ s' = None
         ∧ factory_calls (events_ s') = factory_calls (events_ s) ++ [b])
    ∧ (∀ b fresh, stage_config_map_ s !! NextStage obj' = Some b →
         CreateStage b (injector_ s) = Some fresh →
         st = (if decide (stage_type fresh = NO_STAGE)
               then STATUS_DONE else STATUS_PROCESSING)
         ∧ current_stage_ s' =
             Some (mkInstance (length (factory_calls (events_ s))) fresh)
         ∧ factory_calls (events_ s') = factory_calls (events_ s) ++ [b]).
Proof.
  intros Hc Hty Hp Hne Hns.
  rewrite (Process_delegated s h pt fr FINISHED obj' fr' Hc Hty Hp). cbn zeta.
  set (h' := mkInstance (inst_id h) obj'). set (s1 := stage_called h' s).
  assert (Hcalls : factory_calls (events_ s1) = factory_calls (events_ s))
    by apply stage_called_factory_calls.
  destruct (stage_config_map_ s !! NextStage obj') as [b|] eqn:Hl.
  - rewrite (on_finished_create h' s1 b) by assumption.
    change (injector_ s1) with (injector_ s).
    destruct (CreateStage b (injector_ s)) as [fresh|] eqn:Hf.
    + assert (Hnew : current_stage_ (create_stage b s1)
                     = Some (mkInstance (length (factory_calls (events_ s))) fresh)).
      { unfold create_stage. rewrite Hcalls.
        change (injector_ s1) with (injector_ s). rewrite Hf. reflexivity. }
      unfold settle_finished. rewrite Hnew. cbn [inst_obj].
      destruct (decide (stage_type fresh = NO_STAGE)) as [Hs | Hs].
      * do 2 eexists. split; [reflexivity |]. split; [discriminate |].
        split; [intros b0 [= <-] Hx; congruence |].
        intros b0 fresh0 [= <-] Hx. rewrite Hf in Hx. injection Hx as <-. rewrite decide_True by exact Hs.
        repeat split; [exact Hnew |].
        cbn [set_scenario_status events_]. rewrite create_stage_factory_calls, Hcalls.
        reflexivity.
      * do 2 eexists. split; [reflexivity |]. split; [discriminate |].
        split; [intros b0 [= <-] Hx; congruence |].
        intros b0 fresh0 [= <-] Hx. rewrite Hf in Hx. injection Hx as <-. rewrite decide_False by exact Hs.
        repeat split; [exact Hnew |].
        cbn [set_scenario_status events_]. rewrite create_stage_factory_calls, Hcalls.
        reflexivity.
    + do 2 eexists. split; [reflexivity |]. split; [discriminate |].
      split; [| intros b0 fresh0 [= <-] Hx; congruence].
      intros b0 [= <-] _. repeat split.
      * unfold create_stage. change (injector_ s1) with (injector_ s).
        rewrite Hf. reflexivity.
      * rewrite create_stage_factory_calls, Hcalls. reflexivity.
  - rewrite on_finished_no_config by assumption.
    do 2 eexists. split; [reflexivity |]. split.
    + intros _. repeat split. exact Hcalls.
    + split; intros; discriminate.
Qed.

(** *** Sequences of [Process] calls *)

Lemma run_cons s i inputs :
  run s (i :: inputs) = step s i :: run (step s i).2 inputs.
Proof. reflexivity. Qed.

Lemma final_cons s i inputs :
  final s (i :: inputs) = final (step s i).2 inputs.
Proof. reflexivity. Qed.

Lemma stage_replies_cons (obj : Stage) i inputs :
  stage_replies obj (i :: inputs)
  = (Stage_Process obj i.1 i.2).1
      :: stage_replies (Stage_Process obj i.1 i.2).1.2 inputs.
Proof. reflexivity. Qed.

(** A stage of type [T] whose every answer makes the controller return [st]
    and keep the instance without building anything: over any number of
    cycles the controller keeps returning [st], holds the same instance and
    makes one stage call per cycle and no factory call. *)
Lemma run_retained (Q : StageStatus * Stage → Prop) (st : ScenarioStatus) (T : StageType) :
  T ≠ NO_STAGE →
  (∀ s h pt fr ret obj' fr',
     current_stage_ s = Some h →
     stage_type (inst_obj h) = T →
     Stage_Process (inst_obj h) pt fr = (ret, obj', fr') →
     Q (ret, obj') →
     stage_type obj' = T →
     ∃ s', Process s pt fr = (st, s', fr')
           ∧ current_stage_ s' = Some (mkInstance (inst_id h) obj')
           ∧ factory_calls (events_ s') = factory_calls (events_ s)) →
  ∀ inputs s h,
    current_stage_ s = Some h →
    stage_type (inst_obj h) = T →
    Forall (λ r, Q r ∧ stage_type r.2 = T) (stage_replies (inst_obj h) inputs) →
    Forall2 (λ out r,
               out.1 = st
               ∧ current_stage_ out.2 = Some (mkInstance (inst_id h) r.2)
               ∧ factory_calls (events_ out.2) = factory_calls (events_ s))
            (run s inputs) (stage_replies (inst_obj h) inputs)
    ∧ factory_calls (events_ (final s inputs)) = factory_calls (events_ s)
    ∧ stage_calls (events_ (final s inputs))
      = stage_calls (events_ s) ++ replicate (length inputs) (inst_id h).
Proof.
  intros HT Hstep. induction inputs as [|i inputs IH]; intros s h Hc Hty Hall.
  - cbn. split; [constructor |]. split; [reflexivity |]. symmetry. apply app_nil_r.
  - rewrite stage_replies_cons in Hall |- *. rewrite run_cons, final_cons.
    destruct (Stage_Process (inst_obj h) i.1 i.2) as [[ret obj'] fr'] eqn:Hp.
    cbn [fst snd] in Hall |- *.
    apply Forall_cons in Hall as [[HQ Hty'] Hall].
    cbn [fst snd] in HQ, Hty'.
    destruct (Hstep s h i.1 i.2 ret obj' fr' Hc Hty Hp HQ Hty')
      as [s' [HP [Hc' Hf']]].
    assert (Hdel := Process_delegated_stage_calls s h i.1 i.2 Hc ltac:(congruence)).
    unfold step. rewrite HP in Hdel |- *. cbn [fst snd] in Hdel |- *.
    destruct (IH s' (mkInstance (inst_id h) obj') Hc' Hty' Hall) as [Hrun [Hfc Hsc]].
    cbn [inst_id inst_obj] in Hrun, Hsc.
    split; [| split].
    + constructor.
      * cbn [fst snd]. auto.
      * eapply Forall2_impl; [exact Hrun |].
        intros out r [H1 [H2 H3]]. rewrite <- Hf'. auto.
    + rewrite Hfc. exact Hf'.
    + rewrite Hsc, Hdel. cbn [length replicate]. rewrite <- app_assoc. reflexivity.
Qed.

(** C3: a stage that returns [FINISHED] and names its own type as successor:
    each such call returns [STATUS_PROCESSING], leaves the handle on the same
    instance and does not invoke the factory, for any number of cycles;
    counted from a controller that [Init] has just set up, the factory has
    then been invoked once only, by [Init]. *)
Theorem self_transition_keeps_processing s h inputs :
  current_stage_ s = Some h →
  stage_type (inst_obj h) ≠ NO_STAGE →
  Forall (λ r, r.1 = FINISHED
               ∧ NextStage r.2 = stage_type (inst_obj h)
               ∧ stage_type r.2 = stage_type (inst_obj h))
         (stage_replies (inst_obj h) inputs) →
  Forall2 (λ out r,
             out.1 = STATUS_PROCESSING
             ∧ current_stage_ out.2 = Some (mkInstance (inst_id h) r.2)
             ∧ factory_calls (events_ out.2) = factory_calls (events_ s))
          (run s inputs) (stage_replies (inst_obj h) inputs)
  ∧ factory_calls (events_ (final s inputs)) = factory_calls (events_ s)
  ∧ (∀ c, Init c = InitOk s →
          factory_calls (events_ c) = [] →
          length (factory_calls (events_ (final s inputs))) = 1).
Proof.
  intros Hc Hty Hall.
  destruct (run_retained
              (λ r, r.1 = FINISHED ∧ NextStage r.2 = stage_type (inst_obj h))
              STATUS_PROCESSING (stage_type (inst_obj h)) Hty) with (inputs := inputs) (s := s) (h := h)
    as [Hrun [Hfc _]]; [| exact Hc | reflexivity | | ].
  - clear Hc Hall. intros s0 h0 pt fr ret obj' fr' Hc Hty0 Hp [Hret Hnext] Hty'.
    cbn [fst snd] in Hret, Hnext. subst ret.
    assert (Hlive : stage_type (inst_obj h0) ≠ NO_STAGE) by (rewrite Hty0; assumption).
    rewrite (Process_delegated s0 h0 pt fr FINISHED obj' fr' Hc Hlive Hp). cbn zeta.
    rewrite on_finished_self by (cbn [inst_obj]; congruence).
    rewrite (settle_finished_live _ (mkInstance (inst_id h0) obj'))
      by (try reflexivity; cbn [inst_obj]; congruence).
    eexists. split; [reflexivity |]. split; [reflexivity |].
    apply stage_called_factory_calls.
  - eapply Forall_impl; [exact Hall |]. intros r [H1 [H2 H3]]. auto.
  - split; [exact Hrun |]. split; [exact Hfc |].
    intros c Hi Hnone. rewrite Hfc.
    destruct (Init_ok_inv c s Hi) as [first [rest [b [_ [_ [_ ->]]]]]].
    rewrite create_stage_factory_calls. cbn. rewrite Hnone. reflexivity.
Qed.

(** C2 (as the code has it): a call in which the current stage returns
    [FINISHED] and announces the sentinel returns [STATUS_DONE], keeps the
    instance and does not invoke the factory.  The controller does not latch
    that result: every later call is delegated to the same stage again, and
    returns [STATUS_DONE] without a factory call for as long as the stage
    keeps answering [FINISHED] with the sentinel as successor. *)
Theorem sentinel_successor_done s h inputs :
  current_stage_ s = Some h →
  stage_type (inst_obj h) ≠ NO_STAGE →
  Forall (λ r, r.1 = FINISHED
               ∧ NextStage r.2 = NO_STAGE
               ∧ stage_type r.2 = stage_type (inst_obj h))
         (stage_replies (inst_obj h) inputs) →
  Forall2 (λ out r,
             out.1 = STATUS_DONE
             ∧ current_stage_ out.2 = Some (mkInstance (inst_id h) r.2)
             ∧ factory_calls (events_ out.2) = factory_calls (events_ s))
          (run s inputs) (stage_replies (inst_obj h) inputs)
  ∧ factory_calls (events_ (final s inputs)) = factory_calls (events_ s)
  ∧ stage_calls (events_ (final s inputs))
    = stage_calls (events_ s) ++ replicate (length inputs) (inst_id h).
Proof.
  intros Hc Hty Hall.
  apply (run_retained (λ r, r.1 = FINISHED ∧ NextStage r.2 = NO_STAGE)
                      STATUS_DONE (stage_type (inst_obj h)) Hty);
    [| exact Hc | reflexivity |].
  - clear Hc Hall. intros s0 h0 pt fr ret obj' fr' Hc Hty0 Hp [Hret Hnext] Hty'.
    cbn [fst snd] in Hret, Hnext. subst ret.
    assert (Hlive : stage_type (inst_obj h0) ≠ NO_STAGE) by (rewrite Hty0; assumption).
    rewrite (Process_delegated s0 h0 pt fr FINISHED obj' fr' Hc Hlive Hp). cbn zeta.
    rewrite on_finished_sentinel by (cbn [inst_obj]; congruence).
    eexists. split; [reflexivity |]. split; [reflexivity |].
    apply stage_called_factory_calls.
  - eapply Forall_impl; [exact Hall |]. intros r [H1 [H2 H3]]. auto.
Qed.

(** With no current stage, [Process] changes nothing, over any number of
    cycles. *)
Lemma run_absent s inputs :
  current_stage_ s = None →
  run s inputs = (λ _, (STATUS_UNKNOWN, s)) <$> inputs ∧ final s inputs = s.
Proof.
  intros Hc. induction inputs as [|i inputs [IHr IHf]].
  - split; reflexivity.
  - rewrite run_cons, final_cons. unfold step.
    rewrite (Process_absent s i.1 i.2 Hc). cbn [fst snd].
    rewrite IHr, IHf. split; reflexivity.
Qed.

(** C10 (as the code has it): the two ways the handle becomes empty, and
    that no [Process] call fills it again.  [Init] passes the factory's
    result on unchecked: when the configuration is accepted and the factory
    yields nothing for the entry stage, [Init] still completes, with an
    empty handle.  A transition whose factory call yields nothing empties
    the handle.  From then on every [Process] call returns [STATUS_UNKNOWN]
    and leaves controller and frame as they were: no stage is called, the
    factory is not called, and the handle stays empty, for any number of
    [Process] calls. *)
Theorem absent_stage_is_permanent :
  (∀ c first rest b,
     stage_type_list (config_ c) = first :: rest →
     Forall (λ t, is_Some (index_after_Init c !! t)) (first :: rest) →
     index_after_Init c !! first = Some b →
     CreateStage b (injector_after_Init c) = None →
     ∃ s, Init c = InitOk s ∧ current_stage_ s = None)
  ∧ (∀ s h pt fr obj' fr' b,
       current_stage_ s = Some h →
       stage_type (inst_obj h) ≠ NO_STAGE →
       Stage_Process (inst_obj h) pt fr = (FINISHED, obj', fr') →
       NextStage obj' ≠ stage_type obj' →
       NextStage obj' ≠ NO_STAGE →
       stage_config_map_ s !! NextStage obj' = Some b →
       CreateStage b (injector_ s) = None →
       (Process s pt fr).1.1 = STATUS_UNKNOWN
       ∧ current_stage_ (Process s pt fr).1.2 = None)
  ∧ (∀ s, current_stage_ s = None →
       (∀ pt fr, Process s pt fr = (STATUS_UNKNOWN, s, fr))
       ∧ ∀ inputs,
           statuses s inputs = replicate (length inputs) STATUS_UNKNOWN
           ∧ Forall (λ out, out.2 = s) (run s inputs)
           ∧ final s inputs = s
           ∧ current_stage_ (final s inputs) = None
           ∧ stage_calls (events_ (final s inputs)) = stage_calls (events_ s)
           ∧ factory_calls (events_ (final s inputs)) = factory_calls (events_ s)).
Proof.
  split; [| split].
  - intros c first rest b Hd Hall Hb Hf.
    destruct (Init_covered c first rest Hd Hall) as [b' [Hb' Hi]].
    assert (b' = b) as -> by congruence.
    eexists. split; [exact Hi |].
    unfold create_stage. cbn [current_stage_ log_event set_current_stage].
    change (injector_ (before_entry_stage c)) with (injector_after_Init c).
    rewrite Hf. reflexivity.
  - intros s h pt fr obj' fr' b Hc Hty Hp Hne Hns Hl Hf.
    rewrite (Process_delegated s h pt fr FINISHED obj' fr' Hc Hty Hp). cbn zeta.
    set (s1 := stage_called _ s).
    rewrite (on_finished_create _ s1 b) by assumption.
    change (injector_ s1) with (injector_ s).
    rewrite Hf. cbn [fst snd]. split; [reflexivity |].
    unfold create_stage. change (injector_ s1) with (injector_ s).
    rewrite Hf. reflexivity.
  - intros s Hc. split; [intros pt fr; apply Process_absent; exact Hc |].
    intros inputs. destruct (run_absent s inputs Hc) as [Hr Hf].
    unfold statuses. rewrite Hr, Hf.
    split; [| split; [| repeat split; assumption]].
    + clear. induction inputs as [|i inputs IH]; [reflexivity |].
      cbn. f_equal. exact IH.
    + apply Forall_fmap. apply Forall_forall. intros; reflexivity.
Qed.

Lemma Process_running s h pt fr obj' fr' :
  current_stage_ s = Some h →
  stage_type (inst_obj h) ≠ NO_STAGE →
  Stage_Process (inst_obj h) pt fr = (RUNNING, obj', fr') →
  Process s pt fr =
    (STATUS_PROCESSING,
     set_scenario_status STATUS_PROCESSING (stage_called (mkInstance (inst_id h) obj') s),
     fr').
Proof. intros Hc Hty Hp. apply (Process_delegated s h pt fr RUNNING obj' fr' Hc Hty Hp). Qed.

(** C1: declared stages [X, Y], both configured and both built by the
    factory with their configured type.  [X] answers [RUNNING], [RUNNING],
    [FINISHED] with successor [Y]; [Y] answers [FINISHED] with the sentinel
    as successor.  Then the four calls after [Init] return [PROCESSING],
    [PROCESSING], [PROCESSING], [DONE], and the factory is invoked twice in
    all: by [Init], for [X], and in the third call, for [Y]. *)
Theorem two_stage_scenario (cfg : ScenarioConfig StageConfig) (inj : Injector)
    (X Y : StageType) (bX bY : StageConfig) (x0 x1 x2 x3 y0 y1 : Stage)
    (p1 p2 p3 p4 : TrajectoryPoint) (f1 f2 f3 f4 g1 g2 g3 g4 : Frame) :
  let c := Scenario_new cfg inj in
  let inputs : list Cycle := [(p1, f1); (p2, f2); (p3, f3); (p4, f4)] in
  stage_type_list cfg = [X; Y] →
  X ≠ NO_STAGE → Y ≠ NO_STAGE → X ≠ Y →
  index_after_Init c !! X = Some bX →
  index_after_Init c !! Y = Some bY →
  CreateStage bX (injector_after_Init c) = Some x0 →
  CreateStage bY (injector_after_Init c) = Some y0 →
  stage_type x0 = X → stage_type y0 = Y →
  Stage_Process x0 p1 f1 = (RUNNING, x1, g1) → stage_type x1 = X →
  Stage_Process x1 p2 f2 = (RUNNING, x2, g2) → stage_type x2 = X →
  Stage_Process x2 p3 f3 = (FINISHED, x3, g3) → stage_type x3 = X →
  NextStage x3 = Y →
  Stage_Process y0 p4 f4 = (FINISHED, y1, g4) →
  NextStage y1 = NO_STAGE →
  ∃ s0,
    Init c = InitOk s0
    ∧ factory_calls (events_ s0) = [bX]
    ∧ statuses s0 inputs
      = [STATUS_PROCESSING; STATUS_PROCESSING; STATUS_PROCESSING; STATUS_DONE]
    ∧ (λ out, factory_calls (events_ out.2)) <$> run s0 inputs
      = [[bX]; [bX]; [bX; bY]; [bX; bY]]
    ∧ (λ out, inst_id <$> current_stage_ out.2) <$> run s0 inputs
      = [Some 0; Some 0; Some 1; Some 1].
Proof.
  intros c inputs Hd HX HY HXY HbX HbY HcX HcY Hx0 Hy0 Hp1 Hx1 Hp2 Hx2 Hp3 Hx3 Hn3 Hp4 Hn4.
  assert (Hall : Forall (λ t, is_Some (index_after_Init c !! t)) [X; Y]).
  { repeat constructor; [rewrite HbX | rewrite HbY]; eexists; reflexivity. }
  destruct (Init_covered c X [Y] Hd Hall) as [b [Hb Hi]].
  assert (b = bX) as -> by congruence.
  set (s0 := create_stage bX (before_entry_stage c)) in *.
  assert (Hc0 : current_stage_ s0 = Some (mkInstance 0 x0)).
  { subst s0. unfold create_stage.
    change (injector_ (before_entry_stage c)) with (injector_after_Init c).
    rewrite HcX. reflexivity. }
  (* first and second cycle: [X] is running *)
  set (s1 := set_scenario_status STATUS_PROCESSING (stage_called (mkInstance 0 x1) s0)).
  assert (H1 : Process s0 p1 f1 = (STATUS_PROCESSING, s1, g1)).
  { apply (Process_running s0 (mkInstance 0 x0)); [exact Hc0 | cbn; congruence | exact Hp1]. }
  set (s2 := set_scenario_status STATUS_PROCESSING (stage_called (mkInstance 0 x2) s1)).
  assert (H2 : Process s1 p2 f2 = (STATUS_PROCESSING, s2, g2)).
  { apply (Process_running s1 (mkInstance 0 x1)); [reflexivity | cbn; congruence | exact Hp2]. }
  (* third cycle: [X] has finished, [Y] is built *)
  set (s2' := stage_called (mkInstance 0 x3) s2).
  set (s3 := set_scenario_status STATUS_PROCESSING (create_stage bY s2')).
  assert (Hc3 : current_stage_ (create_stage bY s2') = Some (mkInstance 1 y0)).
  { unfold create_stage.
    change (injector_ s2') with (injector_after_Init c).
    rewrite HcY. reflexivity. }
  assert (H3 : Process s2 p3 f3 = (STATUS_PROCESSING, s3, g3)).
  { rewrite (Process_delegated s2 (mkInstance 0 x2) p3 f3 FINISHED x3 g3);
      [| reflexivity | cbn; congruence | exact Hp3].
    change (mkInstance (inst_id (mkInstance 0 x2)) x3) with (mkInstance 0 x3).
    cbn zeta. fold s2'.
    rewrite (on_finished_create (mkInstance 0 x3) s2' bY);
      [| cbn [inst_obj]; congruence | cbn [inst_obj]; congruence
       | cbn [inst_obj]; rewrite Hn3; exact HbY].
    change (injector_ s2') with (injector_after_Init c). rewrite HcY.
    rewrite (settle_finished_live _ (mkInstance 1 y0));
      [reflexivity | exact Hc3 | cbn [inst_obj]; congruence]. }
  (* fourth cycle: [Y] has finished and names no successor *)
  assert (H4 : ∃ s4, Process s3 p4 f4 = (STATUS_DONE, s4, g4)
                     ∧ events_ s4 = events_ s3 ++ [EvStageProcess 1]
                     ∧ current_stage_ s4 = Some (mkInstance 1 y1)).
  { rewrite (Process_delegated s3 (mkInstance 1 y0) p4 f4 FINISHED y1 g4);
      [| exact Hc3 | cbn; congruence | exact Hp4].
    cbn zeta. unfold on_finished. cbn [inst_obj inst_id].
    destruct (decide (NextStage y1 ≠ stage_type y1)) as [Hne | He].
    - rewrite decide_True by exact Hn4.
      eexists. split; [reflexivity |]. split; reflexivity.
    - unfold settle_finished. cbn [stage_called log_event set_current_stage current_stage_ inst_obj].
      rewrite decide_True by (apply dec_stable in He; congruence).
      eexists. split; [reflexivity |]. split; reflexivity. }
  destruct H4 as [s4 [H4 [He4 Hc4]]].
  exists s0. split; [exact Hi |]. split; [reflexivity |].
  assert (Hrun : run s0 inputs
                 = [(STATUS_PROCESSING, s1); (STATUS_PROCESSING, s2);
                    (STATUS_PROCESSING, s3); (STATUS_DONE, s4)]).
  { subst inputs. rewrite !run_cons. unfold step. cbn [fst snd].
    rewrite H1. cbn [fst snd]. rewrite H2. cbn [fst snd].
    rewrite H3. cbn [fst snd]. rewrite H4. reflexivity. }
  unfold statuses. rewrite Hrun. split; [reflexivity |].
  cbn [fmap list_fmap fst snd]. rewrite He4, Hc4.
  change (current_stage_ s3) with (current_stage_ (create_stage bY s2')).
  rewrite Hc3. split; reflexivity.
Qed.

(** *** [Init] on a newly constructed controller *)

Lemma index_fresh_dom (cfg : ScenarioConfig StageConfig) (inj : Injector) :
  dom (index_after_Init (Scenario_new cfg inj))
  = list_to_set (C := gset StageType) (config_stage_type <$> stage_config cfg).
Proof.
  unfold index_after_Init. rewrite build_stage_config_map_dom.
  cbn. rewrite dom_empty_L. apply (left_id_L ∅ (∪)).
Qed.

Lemma index_fresh_is_Some (cfg : ScenarioConfig StageConfig) (inj : Injector) t :
  is_Some (index_after_Init (Scenario_new cfg inj) !! t)
  ↔ t ∈ (config_stage_type <$> stage_config cfg).
Proof.
  rewrite <- elem_of_dom, index_fresh_dom. apply elem_of_list_to_set.
Qed.

Lemma index_fresh_lookup (cfg : ScenarioConfig StageConfig) (inj : Injector) t b :
  index_after_Init (Scenario_new cfg inj) !! t = Some b →
  b ∈ stage_config cfg ∧ config_stage_type b = t.
Proof.
  intros Hl. apply build_stage_config_map_lookup in Hl as [He | Hin]; [| exact Hin].
  cbn in He. rewrite lookup_empty in He. discriminate.
Qed.

Lemma covered_is_Some (cfg : ScenarioConfig StageConfig) (inj : Injector) declared :
  Forall (λ t, t ∈ (config_stage_type <$> stage_config cfg)) declared →
  Forall (λ t, is_Some (index_after_Init (Scenario_new cfg inj) !! t)) declared.
Proof.
  intros Hcov. eapply Forall_impl; [exact Hcov |].
  intros t Ht. apply index_fresh_is_Some. exact Ht.
Qed.

(** C6 (as the code has it): on a new controller whose configuration
    declares at least one stage type and has a block for every declared
    type, [Init] succeeds and the keys of the index are the stage types of
    the configuration blocks, among them every declared type; if some
    declared type has no block, [Init] is fatal, naming such a type. *)
Theorem Init_index_keys (cfg : ScenarioConfig StageConfig) (inj : Injector) :
  (stage_type_list cfg ≠ [] →
   Forall (λ t, t ∈ (config_stage_type <$> stage_config cfg)) (stage_type_list cfg) →
   ∃ s, Init (Scenario_new cfg inj) = InitOk s
        ∧ dom (stage_config_map_ s)
          = list_to_set (C := gset StageType) (config_stage_type <$> stage_config cfg)
        ∧ list_to_set (C := gset StageType) (stage_type_list cfg)
          ⊆ dom (stage_config_map_ s))
  ∧ (Exists (λ t, t ∉ (config_stage_type <$> stage_config cfg)) (stage_type_list cfg) →
     ∃ t, t ∈ stage_type_list cfg
          ∧ (t ∉ config_stage_type <$> stage_config cfg)
          ∧ Init (Scenario_new cfg inj) = InitFatal (FatalNoConfig t)).
Proof.
  split.
  - intros Hne Hcov.
    destruct (stage_type_list cfg) as [|first rest] eqn:Hd; [contradiction |].
    destruct (Init_covered (Scenario_new cfg inj) first rest Hd
                (covered_is_Some cfg inj _ Hcov)) as [b [Hb Hi]].
    eexists. split; [exact Hi |].
    change (stage_config_map_ (create_stage b (before_entry_stage (Scenario_new cfg inj))))
      with (index_after_Init (Scenario_new cfg inj)).
    rewrite index_fresh_dom. split; [reflexivity |].
    intros t Ht. apply elem_of_list_to_set in Ht. apply elem_of_list_to_set.
    rewrite Forall_forall in Hcov. apply Hcov. exact Ht.
  - intros Hex.
    destruct (first_missing_config (index_after_Init (Scenario_new cfg inj))
                                   (stage_type_list cfg)) as [t|] eqn:Hm.
    + destruct (first_missing_config_Some _ _ _ Hm) as [Hin Hnone].
      exists t. split; [exact Hin |]. split.
      * intros Hc. apply (index_fresh_is_Some cfg inj) in Hc as [b Hb]. congruence.
      * apply Init_uncovered. exact Hm.
    + exfalso. apply first_missing_config_None in Hm.
      apply Exists_exists in Hex as [t [Hin Hnot]].
      rewrite Forall_forall in Hm. apply Hnot.
      apply (index_fresh_is_Some cfg inj). apply Hm. exact Hin.
Qed.

(** C7 (as the code has it): with no declared stage type [Init] is fatal;
    with at least one, the check for an empty list passes; and when, in
    addition, every declared type has a configuration block, [Init] makes
    one factory call, on the block indexed under the first declared type,
    and installs what the factory returns, an instance or none, as the
    current stage. *)
Theorem Init_entry_stage (cfg : ScenarioConfig StageConfig) (inj : Injector) :
  (stage_type_list cfg = [] →
   Init (Scenario_new cfg inj) = InitFatal FatalNoStageTypes)
  ∧ (stage_type_list cfg ≠ [] →
     Init (Scenario_new cfg inj) ≠ InitFatal FatalNoStageTypes)
  ∧ (∀ first rest,
       stage_type_list cfg = first :: rest →
       Forall (λ t, t ∈ (config_stage_type <$> stage_config cfg)) (first :: rest) →
       ∃ b s,
         Init (Scenario_new cfg inj) = InitOk s
         ∧ b ∈ stage_config cfg
         ∧ config_stage_type b = first
         ∧ stage_config_map_ s !! first = Some b
         ∧ current_stage_ s
           = mkInstance 0 <$> CreateStage b (set_scenario_type (scenario_type cfg) inj)
         ∧ events_ s = [EvCreateStage b]).
Proof.
  split; [| split].
  - intros Hd. apply Init_empty. exact Hd.
  - intros Hne Hi.
    destruct (stage_type_list cfg) as [|first rest] eqn:Hd; [contradiction |].
    destruct (first_missing_config (index_after_Init (Scenario_new cfg inj))
                                   (first :: rest)) as [t|] eqn:Hm.
    + rewrite (Init_uncovered _ t) in Hi by (cbn [config_ Scenario_new]; rewrite Hd; exact Hm).
      discriminate.
    + apply first_missing_config_None in Hm.
      destruct (Init_covered (Scenario_new cfg inj) first rest Hd Hm) as [b [_ Hok]].
      rewrite Hok in Hi. discriminate.
  - intros first rest Hd Hcov.
    destruct (Init_covered (Scenario_new cfg inj) first rest Hd
                (covered_is_Some cfg inj _ Hcov)) as [b [Hb Hi]].
    destruct (index_fresh_lookup cfg inj first b Hb) as [Hin Hty].
    exists b. eexists. split; [exact Hi |].
    repeat split; [exact Hin | exact Hty | exact Hb].
Qed.

(** *** Replaying a sequence of answers *)

Lemma same_stage_type_stage_called s1 s2 h1 h2 :
  stage_type (inst_obj h1) = stage_type (inst_obj h2) →
  same_stage_type s1 s2 →
  same_stage_type (stage_called h1 s1) (stage_called h2 s2).
Proof.
  intros Hty (Hcfg & Hinj & Hmap & _).
  repeat split; try assumption. unfold current_type. cbn. rewrite Hty. reflexivity.
Qed.

Lemma same_stage_type_create_stage s1 s2 b :
  config_ s1 = config_ s2 →
  injector_ s1 = injector_ s2 →
  stage_config_map_ s1 = stage_config_map_ s2 →
  same_stage_type (create_stage b s1) (create_stage b s2).
Proof.
  intros Hcfg Hinj Hmap.
  repeat split; try assumption. unfold current_type. cbn. rewrite Hinj.
  destruct (CreateStage b (injector_ s2)); reflexivity.
Qed.

Lemma same_stage_type_current s1 s2 :
  same_stage_type s1 s2 →
  (current_stage_ s1 = None ∧ current_stage_ s2 = None)
  ∨ ∃ h1 h2, current_stage_ s1 = Some h1 ∧ current_stage_ s2 = Some h2
             ∧ stage_type (inst_obj h1) = stage_type (inst_obj h2).
Proof.
  intros (_ & _ & _ & Hty). unfold current_type in Hty.
  destruct (current_stage_ s1) as [h1|], (current_stage_ s2) as [h2|];
    try discriminate; [right | left; split; reflexivity].
  injection Hty as Hty. exists h1, h2. repeat split. exact Hty.
Qed.

Lemma settle_finished_same_type s1 s2 :
  same_stage_type s1 s2 →
  (settle_finished s1).1 = (settle_finished s2).1
  ∧ same_stage_type (settle_finished s1).2 (settle_finished s2).2.
Proof.
  intros HR. unfold settle_finished.
  destruct (same_stage_type_current s1 s2 HR)
    as [[-> ->] | (h1 & h2 & -> & -> & Hty)]; [split; [reflexivity | exact HR] |].
  rewrite Hty. case_decide; (split; [reflexivity | exact HR]).
Qed.

(** The [FINISHED] case takes the same way out for two stages of the same
    type that announce the same successor. *)
Lemma on_finished_same_type s1 s2 h1 h2 :
  stage_type (inst_obj h1) = stage_type (inst_obj h2) →
  NextStage (inst_obj h1) = NextStage (inst_obj h2) →
  same_stage_type s1 s2 →
  (on_finished h1 s1).1 = (on_finished h2 s2).1
  ∧ same_stage_type (on_finished h1 s1).2 (on_finished h2 s2).2.
Proof.
  intros Hty Hnext HR. assert (Hmap := HR). destruct Hmap as (_ & _ & Hmap & _).
  unfold on_finished. rewrite Hty, Hnext, Hmap.
  case_decide; [| apply settle_finished_same_type; exact HR].
  case_decide; [split; [reflexivity | exact HR] |].
  destruct (stage_config_map_ s2 !! NextStage (inst_obj h2)) as [b|];
    [| split; [reflexivity | exact HR]].
  cbn zeta.
  assert (HR' : same_stage_type (create_stage b s1) (create_stage b s2))
    by (apply same_stage_type_create_stage; apply HR).
  destruct (same_stage_type_current _ _ HR')
    as [[-> ->] | (n1 & n2 & Hn1 & Hn2 & Htn)]; [split; [reflexivity | exact HR'] |].
  rewrite Hn1, Hn2. apply settle_finished_same_type. exact HR'.
Qed.

(** One cycle on two controllers whose current stages have the same type
    and give the same answer, whatever the stage objects, the trajectory
    points and the frames are: the same status comes back, and the two
    controllers are again in stages of the same type. *)
Lemma step_same_answer s1 s2 (i1 i2 : Cycle) :
  same_stage_type s1 s2 →
  answer_of s1 i1 = answer_of s2 i2 →
  (step s1 i1).1 = (step s2 i2).1
  ∧ same_stage_type (step s1 i1).2 (step s2 i2).2.
Proof.
  intros HR Hans. unfold step.
  destruct (same_stage_type_current s1 s2 HR)
    as [[Hc1 Hc2] | (h1 & h2 & Hc1 & Hc2 & Hty)].
  { rewrite (Process_absent s1 _ _ Hc1), (Process_absent s2 _ _ Hc2).
    split; [reflexivity | exact HR]. }
  destruct (decide (stage_type (inst_obj h2) = NO_STAGE)) as [Hs | Hlive].
  { rewrite (Process_sentinel s1 h1 _ _ Hc1 ltac:(congruence)),
            (Process_sentinel s2 h2 _ _ Hc2 Hs).
    split; [reflexivity | exact HR]. }
  assert (Hlive1 : stage_type (inst_obj h1) ≠ NO_STAGE) by congruence.
  unfold answer_of in Hans. rewrite Hc1, Hc2 in Hans.
  rewrite decide_False in Hans by exact Hlive1.
  rewrite decide_False in Hans by exact Hlive.
  destruct (Stage_Process (inst_obj h1) i1.1 i1.2) as [[r1 o1] f1] eqn:Hp1.
  destruct (Stage_Process (inst_obj h2) i2.1 i2.2) as [[r2 o2] f2] eqn:Hp2.
  cbn [fst snd] in Hans. injection Hans as Hr Hto Hn. subst r2.
  rewrite (Process_delegated s1 h1 _ _ r1 o1 f1 Hc1 Hlive1 Hp1),
          (Process_delegated s2 h2 _ _ r1 o2 f2 Hc2 Hlive Hp2).
  cbn zeta.
  assert (HR1 : same_stage_type (stage_called (mkInstance (inst_id h1) o1) s1)
                                (stage_called (mkInstance (inst_id h2) o2) s2))
    by (apply same_stage_type_stage_called; [exact Hto | exact HR]).
  destruct r1; cbn [fst snd]; try (split; [reflexivity | exact HR1]).
  injection Hn as Hn.
  apply on_finished_same_type; [exact Hto | exact Hn | exact HR1].
Qed.

Lemma run_same_answers s1 s2 (inputs1 inputs2 : list Cycle) :
  same_stage_type s1 s2 →
  answers s1 inputs1 = answers s2 inputs2 →
  Forall2 (λ o1 o2, o1.1 = o2.1 ∧ same_stage_type o1.2 o2.2)
          (run s1 inputs1) (run s2 inputs2)
  ∧ same_stage_type (final s1 inputs1) (final s2 inputs2).
Proof.
  revert s1 s2 inputs2.
  induction inputs1 as [|i1 inputs1 IH]; intros s1 s2 [|i2 inputs2] HR Hans;
    try discriminate.
  - split; [constructor | exact HR].
  - cbn [answers] in Hans. injection Hans as Ha Hrest.
    rewrite !run_cons, !final_cons.
    destruct (step_same_answer s1 s2 i1 i2 HR Ha) as [Hst HR'].
    destruct (IH _ _ _ HR' Hrest) as [Hrun Hfin].
    split; [| exact Hfin]. constructor; [split; assumption | exact Hrun].
Qed.

Lemma Init_same_stage_type c1 c2 s1 s2 :
  config_ c1 = config_ c2 →
  injector_ c1 = injector_ c2 →
  stage_config_map_ c1 = stage_config_map_ c2 →
  Init c1 = InitOk s1 →
  Init c2 = InitOk s2 →
  same_stage_type s1 s2.
Proof.
  intros Hcfg Hinj Hmap Hi1 Hi2.
  destruct (Init_ok_inv c1 s1 Hi1) as (f1 & r1 & b1 & Hd1 & _ & Hb1 & ->).
  destruct (Init_ok_inv c2 s2 Hi2) as (f2 & r2 & b2 & Hd2 & _ & Hb2 & ->).
  assert (Hidx : index_after_Init c1 = index_after_Init c2)
    by (unfold index_after_Init; rewrite Hcfg, Hmap; reflexivity).
  assert (Hij : injector_after_Init c1 = injector_after_Init c2)
    by (unfold injector_after_Init; rewrite Hcfg, Hinj; reflexivity).
  assert (f1 = f2) as -> by congruence.
  assert (b1 = b2) as -> by congruence.
  apply same_stage_type_create_stage; cbn; assumption.
Qed.

(** C9: two controllers over the same configuration, injector and index,
    each just set up by [Init], are driven through two sequences of cycles.
    The trajectory points and frames of the two sequences may differ, and so
    may the stage objects and what the controllers recorded before; but
    cycle by cycle the stages give the same answers: the same status, the
    same type, and the same successor where they finish.  Then the two runs
    return the same statuses, cycle by cycle and hence at the end, and pass
    through the same stages. *)
Theorem replay_is_deterministic c1 c2 s1 s2 (inputs1 inputs2 : list Cycle) :
  config_ c1 = config_ c2 →
  injector_ c1 = injector_ c2 →
  stage_config_map_ c1 = stage_config_map_ c2 →
  Init c1 = InitOk s1 →
  Init c2 = InitOk s2 →
  answers s1 inputs1 = answers s2 inputs2 →
  current_type s1 = current_type s2
  ∧ visited s1 inputs1 = visited s2 inputs2
  ∧ statuses s1 inputs1 = statuses s2 inputs2
  ∧ last (statuses s1 inputs1) = last (statuses s2 inputs2)
  ∧ current_type (final s1 inputs1) = current_type (final s2 inputs2).
Proof.
  intros Hcfg Hinj Hmap Hi1 Hi2 Hans.
  assert (HR := Init_same_stage_type c1 c2 s1 s2 Hcfg Hinj Hmap Hi1 Hi2).
  destruct (run_same_answers s1 s2 inputs1 inputs2 HR Hans) as [Hrun Hfin].
  assert (Hst : statuses s1 inputs1 = statuses s2 inputs2).
  { unfold statuses. induction Hrun as [|o1 o2 l1 l2 [Ho _] _ IH]; [reflexivity |].
    cbn. rewrite Ho, IH. reflexivity. }
  split; [apply HR |].
  split; [| split; [exact Hst | split; [rewrite Hst; reflexivity | apply Hfin]]].
  unfold visited. induction Hrun as [|o1 o2 l1 l2 [_ Ho] _ IH]; [reflexivity |].
  cbn. destruct Ho as (_ & _ & _ & Ho). rewrite Ho, IH. reflexivity.
Qed.

End Properties.

(** ** Further properties of [Init] and [Process] *)

Section FurtherProperties.
Context {StageConfig Stage Injector TrajectoryPoint Frame : Type}.
Context `{!StageTypeTags}.
Context `{!StageInterface Stage TrajectoryPoint Frame}.
Context `{!ScenarioEnv StageConfig Stage Injector}.

#[local] Notation "'Scenario'" := (Scenario StageConfig Stage Injector).
#[local] Notation "'Cycle'" := (@Cycle TrajectoryPoint Frame).

Implicit Types (s c : Scenario) (h : Instance Stage) (m : gmap StageType StageConfig).
Implicit Types (blocks : list StageConfig) (declared : list StageType).
Implicit Types (inputs : list Cycle) (t : StageType).

(** *** The index *)

(** The first loop of [Init] stores, under each stage type that occurs among
    the blocks, the last block of that type, and leaves other keys alone. *)
Lemma build_stage_config_map_last m blocks t :
  build_stage_config_map m blocks !! t
  = match last_block_of_type t blocks with
    | Some b => Some b
    | None => m !! t
    end.
Proof.
  unfold last_block_of_type.
  revert m. induction blocks as [|b0 blocks IH]; intros m; [reflexivity |].
  rewrite build_stage_config_map_cons, IH, filter_cons.
  destruct (decide (config_stage_type b0 = t)) as [He | Hne].
  - rewrite last_cons.
    destruct (last (filter (λ b, config_stage_type b = t) blocks)); [reflexivity |].
    rewrite He. apply lookup_insert_eq.
  - destruct (last (filter (λ b, config_stage_type b = t) blocks)); [reflexivity |].
    apply lookup_insert_ne. exact Hne.
Qed.

Lemma build_stage_config_map_idem m blocks :
  build_stage_config_map (build_stage_config_map m blocks) blocks
  = build_stage_config_map m blocks.
Proof.
  apply map_eq. intros t. rewrite !build_stage_config_map_last.
  destruct (last_block_of_type t blocks); reflexivity.
Qed.

(** X1: after [Init] on a new controller the index holds, for every stage
    type, the last configuration block of that type: where two blocks have
    the same type the later one wins, and the entry stage is built from the
    last block of the first declared type. *)
Theorem Init_index_last_block_wins (cfg : ScenarioConfig StageConfig) (inj : Injector) s :
  Init (Scenario_new cfg inj) = InitOk s →
  (∀ t, stage_config_map_ s !! t = last_block_of_type t (stage_config cfg))
  ∧ ∃ first rest b,
      stage_type_list cfg = first :: rest
      ∧ last_block_of_type first (stage_config cfg) = Some b
      ∧ factory_calls (events_ s) = [b].
Proof.
  intros Hi.
  destruct (Init_ok_inv _ _ Hi) as (first & rest & b & Hd & _ & Hb & ->).
  assert (Hidx : ∀ t, index_after_Init (Scenario_new cfg inj) !! t
                      = last_block_of_type t (stage_config cfg)).
  { intros t. unfold index_after_Init. rewrite build_stage_config_map_last.
    cbn [Scenario_new config_ stage_config_map_].
    destruct (last_block_of_type t (stage_config cfg)); [reflexivity |].
    apply lookup_empty. }
  split; [exact Hidx |].
  exists first, rest, b. split; [exact Hd |]. split; [| reflexivity].
  rewrite <- Hidx. exact Hb.
Qed.

(** X2: [Init] is fatal for want of a configuration exactly when some
    declared type has no index entry, and the type it names is the first
    such type in declaration order. *)
Theorem Init_names_first_missing c t :
  Init c = InitFatal (FatalNoConfig t)
  ↔ ∃ pre post,
      stage_type_list (config_ c) = pre ++ t :: post
      ∧ Forall (λ t', is_Some (index_after_Init c !! t')) pre
      ∧ index_after_Init c !! t = None.
Proof.
  assert (Hfirst : ∀ declared,
            first_missing_config (index_after_Init c) declared = Some t
            ↔ ∃ pre post, declared = pre ++ t :: post
                ∧ Forall (λ t', is_Some (index_after_Init c !! t')) pre
                ∧ index_after_Init c !! t = None).
  { induction declared as [|t0 declared IH]; cbn [first_missing_config].
    - split; [discriminate |]. intros (pre & post & Hd & _). destruct pre; discriminate.
    - destruct (index_after_Init c !! t0) as [b0|] eqn:Hl.
      + rewrite IH. split.
        * intros (pre & post & -> & Hall & Hnone).
          exists (t0 :: pre), post. split; [reflexivity |].
          split; [| exact Hnone]. apply Forall_cons. split; [| exact Hall].
          rewrite Hl. eexists. reflexivity.
        * intros (pre & post & Hd & Hall & Hnone).
          destruct pre as [|t1 pre]; cbn in Hd; injection Hd as -> ->.
          -- congruence.
          -- apply Forall_cons in Hall as [_ Hall]. exists pre, post. auto.
      + split.
        * intros [= ->]. exists [], declared. split; [reflexivity |].
          split; [constructor | exact Hl].
        * intros (pre & post & Hd & Hall & Hnone).
          destruct pre as [|t1 pre]; cbn in Hd; injection Hd as -> ->; [reflexivity |].
          apply Forall_cons in Hall as [[b1 Hb1] _]. congruence. }
  rewrite <- Hfirst. split.
  - intros Hi.
    destruct (stage_type_list (config_ c)) as [|first rest] eqn:Hd.
    + rewrite Init_empty in Hi by exact Hd. discriminate.
    + destruct (first_missing_config (index_after_Init c) (first :: rest)) as [t'|] eqn:Hm.
      * rewrite (Init_uncovered c t') in Hi by (rewrite Hd; exact Hm). congruence.
      * apply first_missing_config_None in Hm.
        destruct (Init_covered c first rest Hd Hm) as [b [_ Hok]].
        rewrite Hok in Hi. discriminate.
  - apply Init_uncovered.
Qed.

(** *** What one [Process] call changes *)

Lemma Process_frame_conditions s pt fr :
  config_ (Process s pt fr).1.2 = config_ s
  ∧ injector_ (Process s pt fr).1.2 = injector_ s
  ∧ stage_config_map_ (Process s pt fr).1.2 = stage_config_map_ s.
Proof. Process_paths; repeat split. Qed.

(** The calls one [Process] call adds to the record: at most one stage call
    and at most one factory call, the latter only after the former. *)
Lemma Process_new_events s pt fr :
  ∃ l, events_ (Process s pt fr).1.2 = events_ s ++ l
       ∧ length (factory_calls l) ≤ length (stage_calls l)
       ∧ length (stage_calls l) ≤ 1.
Proof.
  Process_paths;
    first [ exists []; split; [symmetry; apply app_nil_r | cbn; lia]
          | eexists [_]; split; [reflexivity | cbn; lia]
          | eexists [_; _]; split; [cbn; rewrite <- app_assoc; reflexivity | cbn; lia] ].
Qed.

Lemma final_frame_conditions s inputs :
  config_ (final s inputs) = config_ s
  ∧ injector_ (final s inputs) = injector_ s
  ∧ stage_config_map_ (final s inputs) = stage_config_map_ s.
Proof.
  revert s. induction inputs as [|i inputs IH]; intros s; [repeat split |].
  rewrite final_cons. unfold step.
  destruct (Process_frame_conditions s i.1 i.2) as (Hc & Hi & Hm).
  destruct (IH (Process s i.1 i.2).1.2) as (Hc' & Hi' & Hm').
  rewrite Hc', Hi', Hm'. repeat split; assumption.
Qed.

(** X3: no [Process] call changes the configuration or the index: after any
    number of cycles they are as [Init] left them. *)
Theorem Process_keeps_configuration s inputs :
  Forall (λ out, config_ out.2 = config_ s
                 ∧ stage_config_map_ out.2 = stage_config_map_ s)
         (run s inputs)
  ∧ config_ (final s inputs) = config_ s
  ∧ stage_config_map_ (final s inputs) = stage_config_map_ s.
Proof.
  revert s. induction inputs as [|i inputs IH]; intros s.
  - split; [constructor | repeat split].
  - rewrite run_cons, final_cons. unfold step.
    destruct (Process_frame_conditions s i.1 i.2) as (Hc & _ & Hm).
    destruct (IH (Process s i.1 i.2).1.2) as (Hrun & Hc' & Hm').
    rewrite Hc, Hm in *.
    split; [| repeat split; assumption].
    constructor; [repeat split; assumption |].
    exact Hrun.
Qed.

(** X4: the factory is called lazily.  A [Process] call invokes it at most
    once, and only when the current stage was called in that same call,
    returned [FINISHED] and announced a successor that is neither its own
    type nor the sentinel and has an entry in the index; the factory is then
    handed exactly that entry. *)
Theorem factory_called_only_on_transition s pt fr :
  factory_calls (events_ (Process s pt fr).1.2) = factory_calls (events_ s)
  ∨ ∃ h b,
      current_stage_ s = Some h
      ∧ stage_type (inst_obj h) ≠ NO_STAGE
      ∧ (Stage_Process (inst_obj h) pt fr).1.1 = FINISHED
      ∧ NextStage (Stage_Process (inst_obj h) pt fr).1.2
        ≠ stage_type (Stage_Process (inst_obj h) pt fr).1.2
      ∧ NextStage (Stage_Process (inst_obj h) pt fr).1.2 ≠ NO_STAGE
      ∧ stage_config_map_ s !! NextStage (Stage_Process (inst_obj h) pt fr).1.2 = Some b
      ∧ factory_calls (events_ (Process s pt fr).1.2) = factory_calls (events_ s) ++ [b]
      ∧ stage_calls (events_ (Process s pt fr).1.2)
        = stage_calls (events_ s) ++ [inst_id h].
Proof.
  destruct (current_stage_ s) as [h|] eqn:Hc;
    [| left; rewrite (Process_absent s pt fr Hc); reflexivity].
  destruct (decide (stage_type (inst_obj h) = NO_STAGE)) as [Hs | Hty];
    [left; rewrite (Process_sentinel s h pt fr Hc Hs); reflexivity |].
  destruct (Stage_Process (inst_obj h) pt fr) as [[ret obj'] fr'] eqn:Hp.
  rewrite (Process_delegated s h pt fr ret obj' fr' Hc Hty Hp). cbn zeta. cbn [fst snd].
  set (h' := mkInstance (inst_id h) obj'). set (s1 := stage_called h' s).
  assert (Hf1 : factory_calls (events_ s1) = factory_calls (events_ s))
    by apply stage_called_factory_calls.
  assert (Hs1 : stage_calls (events_ s1) = stage_calls (events_ s) ++ [inst_id h])
    by apply (stage_called_stage_calls h').
  destruct ret; try (left; exact Hf1).
  destruct (decide (NextStage obj' = stage_type obj')) as [He | Hne].
  { left. rewrite (on_finished_self h' s1 He).
    unfold settle_finished. cbn [s1 stage_called log_event set_current_stage current_stage_].
    case_decide; exact Hf1. }
  destruct (decide (NextStage obj' = NO_STAGE)) as [Hsn | Hns].
  { left. rewrite (on_finished_sentinel h' s1 Hne Hsn). exact Hf1. }
  destruct (stage_config_map_ s !! NextStage obj') as [b|] eqn:Hl.
  2:{ left. rewrite (on_finished_no_config h' s1 Hne Hns Hl). exact Hf1. }
  right. exists h, b. rewrite Hp. cbn [fst snd].
  repeat (split; [first [reflexivity | assumption] |]).
  rewrite (on_finished_create h' s1 b Hne Hns Hl).
  destruct (CreateStage b (injector_ s1)) as [fresh|] eqn:Hcr; cbn [fst snd].
  - unfold settle_finished.
    destruct (current_stage_ (create_stage b s1)) as [hn|]; [case_decide |];
      cbn [fst snd set_scenario_status events_];
      rewrite create_stage_factory_calls, create_stage_stage_calls, Hf1, Hs1;
      split; reflexivity.
  - rewrite create_stage_factory_calls, create_stage_stage_calls, Hf1, Hs1.
    split; reflexivity.
Qed.

(** X5: over any number of cycles the record of calls only grows, by at most
    one stage call per cycle, and by no more factory calls than stage
    calls. *)
Theorem calls_bounded_by_cycles s inputs :
  ∃ l, events_ (final s inputs) = events_ s ++ l
       ∧ length (factory_calls l) ≤ length (stage_calls l)
       ∧ length (stage_calls l) ≤ length inputs.
Proof.
  revert s. induction inputs as [|i inputs IH]; intros s.
  - exists []. split; [symmetry; apply app_nil_r | cbn; lia].
  - rewrite final_cons. unfold step.
    destruct (Process_new_events s i.1 i.2) as (l1 & He1 & Hf1 & Hs1).
    destruct (IH (Process s i.1 i.2).1.2) as (l2 & He2 & Hf2 & Hs2).
    exists (l1 ++ l2). rewrite He2, He1, <- app_assoc.
    split; [reflexivity |].
    rewrite factory_calls_app, stage_calls_app, !length_app. cbn [length]. lia.
Qed.

(** X6: the status [Process] returns and the status it records.  When the
    call leaves a stage in the handle, the recorded status is the returned
    one.  When it leaves the handle empty, it returns [STATUS_UNKNOWN] and
    the recorded status is the one of the call before. *)
Theorem recorded_status s pt fr :
  (is_Some (current_stage_ (Process s pt fr).1.2) →
   scenario_status_ (Process s pt fr).1.2 = (Process s pt fr).1.1)
  ∧ (current_stage_ (Process s pt fr).1.2 = None →
     (Process s pt fr).1.1 = STATUS_UNKNOWN
     ∧ scenario_status_ (Process s pt fr).1.2 = scenario_status_ s).
Proof.
  destruct (current_stage_ s) as [h|] eqn:Hc.
  2:{ rewrite (Process_absent s pt fr Hc). cbn [fst snd]. rewrite Hc.
      split; [intros [? ?]; discriminate | intros _; split; reflexivity]. }
  destruct (decide (stage_type (inst_obj h) = NO_STAGE)) as [Hs | Hty].
  { rewrite (Process_sentinel s h pt fr Hc Hs). cbn [fst snd].
    split; [reflexivity |]. cbn. rewrite Hc. discriminate. }
  destruct (Stage_Process (inst_obj h) pt fr) as [[ret obj'] fr'] eqn:Hp.
  rewrite (Process_delegated s h pt fr ret obj' fr' Hc Hty Hp). cbn zeta.
  set (h' := mkInstance (inst_id h) obj'). set (s1 := stage_called h' s).
  assert (Hlive : ∀ st s2, current_stage_ s2 = Some h' ∨ is_Some (current_stage_ s2) →
            (is_Some (current_stage_ (set_scenario_status st s2)) →
             scenario_status_ (set_scenario_status st s2) = st)
            ∧ (current_stage_ (set_scenario_status st s2) = None →
               st = STATUS_UNKNOWN
               ∧ scenario_status_ (set_scenario_status st s2) = scenario_status_ s)).
  { intros st s2 Hsome. split; [reflexivity |]. cbn. intros Hn.
    destruct Hsome as [Hsome | [? Hsome]]; congruence. }
  destruct ret; cbn [fst snd]; try (apply Hlive; left; reflexivity).
  unfold on_finished, settle_finished.
  repeat case_decide; try (apply Hlive; left; reflexivity).
  - destruct (stage_config_map_ s1 !! NextStage (inst_obj h')) as [b|];
      [| apply Hlive; left; reflexivity].
    cbn zeta.
    destruct (current_stage_ (create_stage b s1)) as [hn|] eqn:Hn.
    + case_decide; cbn [fst snd]; apply Hlive; right; rewrite Hn; eexists; reflexivity.
    + cbn [fst snd]. rewrite Hn.
      split; [intros [? ?]; discriminate | intros _; split; reflexivity].
  - cbn [s1 stage_called log_event set_current_stage current_stage_].
    case_decide; cbn [fst snd]; apply Hlive; left; reflexivity.
Qed.

(** *** Stages that do not move on *)

(** X7: a current stage of the sentinel type is never called.  Every
    [Process] call returns [STATUS_DONE], records it, and makes no stage call
    and no factory call; the handle keeps the stage, so this lasts. *)
Theorem sentinel_stage_is_done s h inputs :
  current_stage_ s = Some h →
  stage_type (inst_obj h) = NO_STAGE →
  statuses s inputs = replicate (length inputs) STATUS_DONE
  ∧ Forall (λ out, out.2 = set_scenario_status STATUS_DONE s) (run s inputs)
  ∧ events_ (final s inputs) = events_ s
  ∧ current_stage_ (final s inputs) = Some h.
Proof.
  intros Hc Hty. unfold statuses.
  revert s Hc. induction inputs as [|i inputs IH]; intros s Hc.
  - repeat split; [constructor | exact Hc].
  - rewrite run_cons, final_cons. unfold step.
    rewrite (Process_sentinel s h i.1 i.2 Hc Hty). cbn [fst snd].
    destruct (IH (set_scenario_status STATUS_DONE s) Hc) as (Hst & Hrun & He & Hc').
    rewrite fmap_cons. cbn [fst length replicate]. rewrite Hst.
    split; [reflexivity |]. split; [| split; assumption].
    constructor; [reflexivity | exact Hrun].
Qed.

(** X8: a stage that keeps returning [RUNNING] is never replaced and never
    timed out: every cycle returns [STATUS_PROCESSING], is delegated to the
    same instance, and the factory is not called. *)
Theorem running_stage_keeps_processing s h inputs :
  current_stage_ s = Some h →
  stage_type (inst_obj h) ≠ NO_STAGE →
  Forall (λ r, r.1 = RUNNING ∧ stage_type r.2 = stage_type (inst_obj h))
         (stage_replies (inst_obj h) inputs) →
  Forall2 (λ out r,
             out.1 = STATUS_PROCESSING
             ∧ current_stage_ out.2 = Some (mkInstance (inst_id h) r.2)
             ∧ factory_calls (events_ out.2) = factory_calls (events_ s))
          (run s inputs) (stage_replies (inst_obj h) inputs)
  ∧ factory_calls (events_ (final s inputs)) = factory_calls (events_ s)
  ∧ stage_calls (events_ (final s inputs))
    = stage_calls (events_ s) ++ replicate (length inputs) (inst_id h).
Proof.
  intros Hc Hty Hall.
  apply (run_retained (λ r, r.1 = RUNNING) STATUS_PROCESSING
                      (stage_type (inst_obj h)) Hty);
    [| exact Hc | reflexivity | exact Hall].
  clear Hc Hall. intros s0 h0 pt fr ret obj' fr' Hc Hty0 Hp Hret Hty'.
  cbn [fst] in Hret. subst ret.
  assert (Hlive : stage_type (inst_obj h0) ≠ NO_STAGE) by (rewrite Hty0; exact Hty).
  rewrite (Process_running s0 h0 pt fr obj' fr' Hc Hlive Hp).
  eexists. split; [reflexivity |]. split; [reflexivity |].
  apply stage_called_factory_calls.
Qed.

(** X9: a stage that returns [ERROR], or a value outside the three the
    [switch] names, on every cycle: every cycle returns [STATUS_UNKNOWN], the
    instance stays in the handle and is called again on the next cycle, and
    the factory is not called. *)
Theorem failing_stage_keeps_unknown s h inputs :
  current_stage_ s = Some h →
  stage_type (inst_obj h) ≠ NO_STAGE →
  Forall (λ r, (r.1 = ERROR ∨ ∃ code, r.1 = UNEXPECTED code)
               ∧ stage_type r.2 = stage_type (inst_obj h))
         (stage_replies (inst_obj h) inputs) →
  Forall2 (λ out r,
             out.1 = STATUS_UNKNOWN
             ∧ current_stage_ out.2 = Some (mkInstance (inst_id h) r.2)
             ∧ factory_calls (events_ out.2) = factory_calls (events_ s))
          (run s inputs) (stage_replies (inst_obj h) inputs)
  ∧ factory_calls (events_ (final s inputs)) = factory_calls (events_ s)
  ∧ stage_calls (events_ (final s inputs))
    = stage_calls (events_ s) ++ replicate (length inputs) (inst_id h).
Proof.
  intros Hc Hty Hall.
  apply (run_retained (λ r, r.1 = ERROR ∨ ∃ code, r.1 = UNEXPECTED code)
                      STATUS_UNKNOWN (stage_type (inst_obj h)) Hty);
    [| exact Hc | reflexivity | exact Hall].
  clear Hc Hall. intros s0 h0 pt fr ret obj' fr' Hc Hty0 Hp Hret Hty'.
  cbn [fst] in Hret.
  assert (Hlive : stage_type (inst_obj h0) ≠ NO_STAGE) by (rewrite Hty0; exact Hty).
  rewrite (Process_delegated s0 h0 pt fr ret obj' fr' Hc Hlive Hp).
  cbn zeta.
  destruct Hret as [-> | [code ->]];
    (eexists; split; [reflexivity |]; split; [reflexivity |];
     apply stage_called_factory_calls).
Qed.

(** *** [Init] on a controller that has run *)

(** X10: [Init] can be repeated.  On a controller that [Init] has set up and
    that has since run any number of cycles, a second [Init] succeeds; it
    leaves the configuration and the index as they were, does not reset the
    recorded status, and makes one more factory call, on the same entry
    block as the first. *)
Theorem Init_again c s inputs :
  Init c = InitOk s →
  ∃ b s2,
    Init (final s inputs) = InitOk s2
    ∧ config_ s2 = config_ s
    ∧ stage_config_map_ s2 = stage_config_map_ s
    ∧ scenario_status_ s2 = scenario_status_ (final s inputs)
    ∧ factory_calls (events_ s) = factory_calls (events_ c) ++ [b]
    ∧ factory_calls (events_ s2) = factory_calls (events_ (final s inputs)) ++ [b].
Proof.
  intros Hi.
  destruct (Init_ok_inv c s Hi) as (first & rest & b & Hd & Hall & Hb & Hs).
  destruct (final_frame_conditions s inputs) as (Hcf & _ & Hmf).
  assert (Hcs : config_ s = config_ c) by (rewrite Hs; reflexivity).
  assert (Hms : stage_config_map_ s = index_after_Init c) by (rewrite Hs; reflexivity).
  assert (Hidx : index_after_Init (final s inputs) = index_after_Init c).
  { unfold index_after_Init at 1. rewrite Hmf, Hcf, Hms, Hcs.
    apply build_stage_config_map_idem. }
  destruct (Init_covered (final s inputs) first rest) as [b' [Hb' Hok]].
  - rewrite Hcf, Hcs. exact Hd.
  - rewrite Hidx. exact Hall.
  - assert (b' = b) as -> by congruence.
    exists b. eexists. split; [exact Hok |].
    split; [cbn; congruence |].
    split; [cbn; fold (index_after_Init (final s inputs)); congruence |].
    split; [reflexivity |].
    split; [rewrite Hs, create_stage_factory_calls; reflexivity |].
    rewrite create_stage_factory_calls. reflexivity.
Qed.

(** *** With collaborators that respect stage types *)

Lemma build_stage_config_map_keyed m blocks :
  (∀ t b, m !! t = Some b → config_stage_type b = t) →
  ∀ t b, build_stage_config_map m blocks !! t = Some b → config_stage_type b = t.
Proof.
  intros Hm t b Hl.
  apply build_stage_config_map_lookup in Hl as [Hl | [_ Hty]]; [| exact Hty].
  apply (Hm t b Hl).
Qed.

Lemma Process_keeps_invariant s pt fr :
  factory_respects_type →
  stages_keep_type →
  index_keyed s →
  current_stage_configured s →
  index_keyed (Process s pt fr).1.2
  ∧ current_stage_configured (Process s pt fr).1.2.
Proof.
  intros Hfac Hkeep Hkey Hconf.
  split.
  { unfold index_keyed.
    destruct (Process_frame_conditions s pt fr) as (_ & _ & ->). exact Hkey. }
  destruct (current_stage_ s) as [h|] eqn:Hc;
    [| rewrite (Process_absent s pt fr Hc); exact Hconf].
  destruct (decide (stage_type (inst_obj h) = NO_STAGE)) as [Hs | Hty];
    [rewrite (Process_sentinel s h pt fr Hc Hs); exact Hconf |].
  destruct (Stage_Process (inst_obj h) pt fr) as [[ret obj'] fr'] eqn:Hp.
  rewrite (Process_delegated s h pt fr ret obj' fr' Hc Hty Hp). cbn zeta.
  set (h' := mkInstance (inst_id h) obj'). set (s1 := stage_called h' s).
  assert (Hobj : stage_type obj' = stage_type (inst_obj h)).
  { specialize (Hkeep (inst_obj h) pt fr). rewrite Hp in Hkeep. exact Hkeep. }
  assert (Hconf1 : current_stage_configured s1).
  { intros h0 [= <-]. cbn [h' inst_obj]. rewrite Hobj. apply (Hconf h Hc). }
  destruct ret; cbn [fst snd]; try exact Hconf1.
  unfold on_finished, settle_finished.
  repeat case_decide; try exact Hconf1.
  - destruct (stage_config_map_ s1 !! NextStage (inst_obj h')) as [b|] eqn:Hl;
      [| exact Hconf1].
    cbn zeta.
    assert (Hnew : current_stage_configured (create_stage b s1)).
    { intros h0. unfold create_stage.
      cbn [log_event set_current_stage current_stage_ stage_config_map_].
      destruct (CreateStage b (injector_ s1)) as [fresh|] eqn:Hcr; [| discriminate].
      intros [= <-]. cbn [inst_obj].
      rewrite (Hfac b _ fresh Hcr), (Hkey _ b Hl). rewrite Hl. eexists. reflexivity. }
    destruct (current_stage_ (create_stage b s1)) as [hn|];
      [case_decide |]; exact Hnew.
  - cbn [s1 stage_called log_event set_current_stage current_stage_].
    case_decide; exact Hconf1.
Qed.

(** X11: with a factory that builds stages of the configured type and stages
    that keep their type, a controller set up by [Init] from an index whose
    entries are stored under their own type (an empty one, for a new
    controller) never holds a stage whose type is missing from the index, at
    [Init] or after any number of cycles. *)
Theorem current_stage_stays_configured c s inputs :
  factory_respects_type →
  stages_keep_type →
  index_keyed c →
  Init c = InitOk s →
  index_keyed s
  ∧ current_stage_configured s
  ∧ Forall (λ out, index_keyed out.2 ∧ current_stage_configured out.2) (run s inputs).
Proof.
  intros Hfac Hkeep Hkey Hi.
  destruct (Init_ok_inv c s Hi) as (first & rest & b & Hd & Hall & Hb & Hs).
  assert (Hkey' : index_keyed s).
  { rewrite Hs. intros t b0 Hl. apply (build_stage_config_map_keyed _ _ Hkey t b0 Hl). }
  assert (Hconf : current_stage_configured s).
  { rewrite Hs. intros h0. unfold create_stage.
    cbn [log_event set_current_stage current_stage_ stage_config_map_].
    destruct (CreateStage b _) as [fresh|] eqn:Hcr; [| discriminate].
    intros [= <-]. cbn [inst_obj].
    rewrite (Hfac b _ fresh Hcr).
    assert (Hty : config_stage_type b = first)
      by (apply (build_stage_config_map_keyed _ _ Hkey first b Hb)).
    rewrite Hty.
    change (is_Some (index_after_Init c !! first)). rewrite Hb. eexists. reflexivity. }
  split; [exact Hkey' |]. split; [exact Hconf |].
  clear Hi Hs. revert s Hkey' Hconf.
  induction inputs as [|i inputs IH]; intros s Hkey' Hconf; [constructor |].
  rewrite run_cons. unfold step.
  destruct (Process_keeps_invariant s i.1 i.2 Hfac Hkeep Hkey' Hconf) as [Hk1 Hc1].
  constructor; [split; assumption |]. apply IH; assumption.
Qed.

(** X12: with the same collaborators and an index whose entries are stored
    under their own type, [Process] returns [STATUS_DONE] in two cases only:
    the current stage has the sentinel type, or it has just returned
    [FINISHED] and announced the sentinel as its successor. *)
Theorem done_only_by_sentinel s pt fr :
  factory_respects_type →
  stages_keep_type →
  index_keyed s →
  (Process s pt fr).1.1 = STATUS_DONE
  ↔ ∃ h, current_stage_ s = Some h
         ∧ (stage_type (inst_obj h) = NO_STAGE
            ∨ ((Stage_Process (inst_obj h) pt fr).1.1 = FINISHED
               ∧ NextStage (Stage_Process (inst_obj h) pt fr).1.2 = NO_STAGE)).
Proof.
  intros Hfac Hkeep Hkey.
  destruct (current_stage_ s) as [h|] eqn:Hc.
  2:{ rewrite (Process_absent s pt fr Hc). cbn [fst].
      split; [discriminate | intros (h & Hh & _); discriminate]. }
  destruct (decide (stage_type (inst_obj h) = NO_STAGE)) as [Hs | Hty].
  { rewrite (Process_sentinel s h pt fr Hc Hs). cbn [fst].
    split; [intros _; exists h; auto | reflexivity]. }
  assert (Hobj := Hkeep (inst_obj h) pt fr).
  assert (Hrhs : (∃ h0, Some h = Some h0
                        ∧ (stage_type (inst_obj h0) = NO_STAGE
                           ∨ ((Stage_Process (inst_obj h0) pt fr).1.1 = FINISHED
                              ∧ NextStage (Stage_Process (inst_obj h0) pt fr).1.2
                                = NO_STAGE)))
                 ↔ ((Stage_Process (inst_obj h) pt fr).1.1 = FINISHED
                    ∧ NextStage (Stage_Process (inst_obj h) pt fr).1.2 = NO_STAGE)).
  { split.
    - intros (h0 & [= <-] & [Hs | HP]); [contradiction | exact HP].
    - intros HP. exists h. auto. }
  rewrite Hrhs. clear Hrhs.
  destruct (Stage_Process (inst_obj h) pt fr) as [[ret obj'] fr'] eqn:Hp.
  cbn [fst snd] in Hobj |- *.
  rewrite (Process_delegated s h pt fr ret obj' fr' Hc Hty Hp). cbn zeta.
  destruct ret; cbn [fst snd];
    try (split; [discriminate | intros [? _]; discriminate]).
  set (h' := mkInstance (inst_id h) obj'). set (s1 := stage_called h' s).
  destruct (decide (NextStage obj' = stage_type obj')) as [He | Hne].
  { rewrite (on_finished_self h' s1 He).
    rewrite (settle_finished_live s1 h') by (try reflexivity; cbn [h' inst_obj]; congruence).
    cbn [fst]. split; [discriminate |]. intros [_ Hn]. congruence. }
  destruct (decide (NextStage obj' = NO_STAGE)) as [Hsn | Hns].
  { rewrite (on_finished_sentinel h' s1 Hne Hsn). cbn [fst].
    split; [intros _; auto | reflexivity]. }
  destruct (stage_config_map_ s !! NextStage obj') as [b|] eqn:Hl.
  2:{ rewrite (on_finished_no_config h' s1 Hne Hns Hl). cbn [fst].
      split; [discriminate | intros [_ Hn]; contradiction]. }
  rewrite (on_finished_create h' s1 b Hne Hns Hl).
  destruct (CreateStage b (injector_ s1)) as [fresh|] eqn:Hcr.
  - assert (Hnew : current_stage_ (create_stage b s1)
                   = Some (mkInstance (length (factory_calls (events_ s1))) fresh))
      by (unfold create_stage; rewrite Hcr; reflexivity).
    assert (Htf : stage_type fresh ≠ NO_STAGE).
    { rewrite (Hfac b _ fresh Hcr), (Hkey _ b Hl). exact Hns. }
    rewrite (settle_finished_live _ _ Hnew Htf). cbn [fst].
    split; [discriminate | intros [_ Hn]; contradiction].
  - cbn [fst]. split; [discriminate | intros [_ Hn]; contradiction].
Qed.

End FurtherProperties.

(** ** The controller on scripted stages *)

Import Scripted.

(** C1 on the configuration [X, Y] and the script of the scenario. *)
Lemma two_stage_scenario_witness :
  statuses (started config_XY)
           [reply RUNNING NO_STAGE; reply RUNNING NO_STAGE; reply FINISHED Y;
            reply FINISHED NO_STAGE]
  = [STATUS_PROCESSING; STATUS_PROCESSING; STATUS_PROCESSING; STATUS_DONE]
  ∧ length (factory_calls (events_ (started config_XY))) = 1
  ∧ length (factory_calls (events_
              (final (started config_XY)
                     [reply RUNNING NO_STAGE; reply RUNNING NO_STAGE;
                      reply FINISHED Y; reply FINISHED NO_STAGE]))) = 2.
Proof.
  destruct (two_stage_scenario config_XY None X Y (mkBlock X true) (mkBlock Y true)
              (mkStage X X) (mkStage X NO_STAGE) (mkStage X NO_STAGE) (mkStage X Y)
              (mkStage Y Y) (mkStage Y NO_STAGE)
              tt tt tt tt
              (RUNNING, NO_STAGE) (RUNNING, NO_STAGE) (FINISHED, Y) (FINISHED, NO_STAGE)
              (RUNNING, NO_STAGE) (RUNNING, NO_STAGE) (FINISHED, Y) (FINISHED, NO_STAGE))
    as [s0 [Hi [_ [Hst [Hf _]]]]];
    try reflexivity; try (vm_compute; lia).
  assert (s0 = started config_XY) as ->
    by (unfold started, fresh; rewrite Hi; reflexivity).
  split; [exact Hst |]. split; reflexivity.
Defined.

(** C2, as the claim has it, fails: after [X] has answered [FINISHED] with
    the sentinel as successor (a call that returns [STATUS_DONE]), the next
    call is delegated to [X] again.  If [X] then answers [RUNNING] the
    call returns [STATUS_PROCESSING]; if it answers [FINISHED] with
    successor [Y], the factory is invoked a second time. *)
Lemma sentinel_successor_not_latched :
  (λ r, (r.1, NextStage r.2)) <$> stage_replies (mkStage X X) [reply FINISHED NO_STAGE]
  = [(FINISHED, NO_STAGE)]
  ∧ statuses (started config_XY) [reply FINISHED NO_STAGE; reply RUNNING NO_STAGE]
    = [STATUS_DONE; STATUS_PROCESSING]
  ∧ statuses (started config_XY) [reply FINISHED NO_STAGE; reply FINISHED Y]
    = [STATUS_DONE; STATUS_PROCESSING]
  ∧ factory_calls (events_ (final (started config_XY) [reply FINISHED NO_STAGE]))
    = [mkBlock X true]
  ∧ factory_calls (events_ (final (started config_XY)
                                  [reply FINISHED NO_STAGE; reply FINISHED Y]))
    = [mkBlock X true; mkBlock Y true].
Proof. repeat split; vm_compute; reflexivity. Qed.

(** C2 as amended, on a stage that keeps announcing the sentinel. *)
Lemma sentinel_successor_done_witness :
  statuses (started config_XY) [reply FINISHED NO_STAGE; reply FINISHED NO_STAGE]
  = [STATUS_DONE; STATUS_DONE]
  ∧ factory_calls (events_ (final (started config_XY)
                                  [reply FINISHED NO_STAGE; reply FINISHED NO_STAGE]))
    = [mkBlock X true]
  ∧ stage_calls (events_ (final (started config_XY)
                                [reply FINISHED NO_STAGE; reply FINISHED NO_STAGE]))
    = [0; 0].
Proof.
  destruct (sentinel_successor_done (started config_XY) (mkInstance 0 (mkStage X X))
              [reply FINISHED NO_STAGE; reply FINISHED NO_STAGE])
    as [Hrun [Hf Hs]].
  - reflexivity.
  - vm_compute. lia.
  - repeat constructor.
  - split; [reflexivity |]. split; [exact Hf | exact Hs].
Defined.

(** C3 on a stage that names itself as successor three times over. *)
Lemma self_transition_keeps_processing_witness :
  statuses (started config_XY) [reply FINISHED X; reply FINISHED X; reply FINISHED X]
  = [STATUS_PROCESSING; STATUS_PROCESSING; STATUS_PROCESSING]
  ∧ length (factory_calls (events_
              (final (started config_XY)
                     [reply FINISHED X; reply FINISHED X; reply FINISHED X]))) = 1.
Proof.
  destruct (self_transition_keeps_processing
              (started config_XY) (mkInstance 0 (mkStage X X))
              [reply FINISHED X; reply FINISHED X; reply FINISHED X])
    as [Hrun [Hf Hinit]].
  - reflexivity.
  - vm_compute. lia.
  - repeat constructor.
  - split; [reflexivity |].
    apply (Hinit (fresh config_XY)); reflexivity.
Defined.

(** C4 on a successor, [Z], that the configuration does not know. *)
Lemma Process_unknown_successor_witness :
  (Process (started config_XY) tt (FINISHED, Z)).1.1 = STATUS_UNKNOWN
  ∧ factory_calls (events_ (Process (started config_XY) tt (FINISHED, Z)).1.2)
    = [mkBlock X true].
Proof.
  destruct (Process_unknown_successor
              (started config_XY) (mkInstance 0 (mkStage X X)) tt (FINISHED, Z)
              (mkStage X Z) (FINISHED, Z))
    as [s' [HP [Hc [Hf Hst]]]].
  - reflexivity.
  - vm_compute. lia.
  - reflexivity.
  - exists (mkBlock X true). reflexivity.
  - vm_compute. lia.
  - reflexivity.
  - rewrite HP. split; [reflexivity | exact Hf].
Defined.

(** C5 on a successor, [Y], that the factory cannot build. *)
Lemma Process_transition_outcomes_witness :
  (Process (started config_Y_unbuildable) tt (FINISHED, Y)).1.1 = STATUS_UNKNOWN
  ∧ current_stage_ (Process (started config_Y_unbuildable) tt (FINISHED, Y)).1.2 = None.
Proof.
  destruct (Process_transition_outcomes
              (started config_Y_unbuildable) (mkInstance 0 (mkStage X X)) tt
              (FINISHED, Y) (mkStage X Y) (FINISHED, Y))
    as [st [s' [HP [_ [Hfail _]]]]].
  - reflexivity.
  - vm_compute. lia.
  - reflexivity.
  - vm_compute. lia.
  - vm_compute. lia.
  - rewrite HP.
    destruct (Hfail (mkBlock Y false)) as [Hst [Hc _]]; [reflexivity | reflexivity |].
    split; [exact Hst | exact Hc].
Defined.

(** C8 on a stage that reports an error. *)
Lemma Process_stage_error_witness :
  (Process (started config_XY) tt (ERROR, NO_STAGE)).1.1 = STATUS_UNKNOWN
  ∧ current_stage_ (Process (started config_XY) tt (ERROR, NO_STAGE)).1.2
    = Some (mkInstance 0 (mkStage X NO_STAGE)).
Proof.
  destruct (Process_stage_error
              (started config_XY) (mkInstance 0 (mkStage X X)) tt (ERROR, NO_STAGE)
              (mkStage X NO_STAGE) (ERROR, NO_STAGE))
    as [s' [HP [Hc _]]].
  - reflexivity.
  - vm_compute. lia.
  - reflexivity.
  - rewrite HP. split; [reflexivity | exact Hc].
Defined.

(** C6, as the claim has it, fails.  With declared stage [X] and blocks for
    [X] and [Y], every declared type is configured and [Init] succeeds, but
    the index also has the key [Y].  With no declared stage at all, every
    declared type is configured and [Init] is fatal. *)
Lemma index_keys_exceed_declared :
  (Forall (λ t, t ∈ (config_stage_type <$> stage_config config_X_extra))
          (stage_type_list config_X_extra)
   ∧ Init (fresh config_X_extra) = InitOk (started config_X_extra)
   ∧ dom (stage_config_map_ (started config_X_extra))
     ≠ list_to_set (C := gset StageType) (stage_type_list config_X_extra))
  ∧ (Forall (λ t, t ∈ (config_stage_type <$> stage_config config_empty))
            (stage_type_list config_empty)
     ∧ Init (fresh config_empty) = InitFatal FatalNoStageTypes).
Proof.
  split; [split; [| split] | split].
  - repeat constructor.
  - reflexivity.
  - intros Heq.
    assert (Hin : Y ∈ dom (stage_config_map_ (started config_X_extra)))
      by (apply elem_of_dom; exists (mkBlock Y true); reflexivity).
    rewrite Heq in Hin. apply elem_of_list_to_set in Hin.
    cbn in Hin. apply list_elem_of_singleton in Hin. discriminate Hin.
  - constructor.
  - reflexivity.
Qed.

(** C6 as amended: an accepted configuration, and one with an unconfigured
    declared type. *)
Lemma Init_index_keys_witness :
  (∃ s, Init (fresh config_X_extra) = InitOk s
        ∧ dom (stage_config_map_ s) = list_to_set (C := gset StageType) [X; Y])
  ∧ Init (fresh config_XZ) = InitFatal (FatalNoConfig Z).
Proof.
  split.
  - destruct (Init_index_keys config_X_extra None) as [Hok _].
    destruct Hok as [s [Hi [Hdom _]]].
    + discriminate.
    + repeat constructor.
    + exists s. split; [exact Hi | exact Hdom].
  - destruct (Init_index_keys config_XZ None) as [_ Hfatal].
    destruct Hfatal as [t [Hin [Hnot Hi]]].
    + apply Exists_cons_tl, Exists_cons_hd.
      intros Hin. cbn in Hin. apply list_elem_of_singleton in Hin. discriminate Hin.
    + cbn in Hin. apply elem_of_cons in Hin as [-> | Hin].
      * exfalso. apply Hnot. left.
      * apply list_elem_of_singleton in Hin. subst t. exact Hi.
Defined.

(** C7, as the claim has it, fails: the declared sequence [X, Z] is not
    empty, yet [Init] is fatal, and builds no stage, for want of a
    configuration block for [Z]. *)
Lemma Init_nonempty_still_fatal :
  stage_type_list config_XZ ≠ []
  ∧ Init (fresh config_XZ) = InitFatal (FatalNoConfig Z).
Proof. split; [discriminate | reflexivity]. Qed.

(** C7 as amended: no declared stage, and the configuration [X, Y]. *)
Lemma Init_entry_stage_witness :
  Init (fresh config_empty) = InitFatal FatalNoStageTypes
  ∧ ∃ s, Init (fresh config_XY) = InitOk s
         ∧ current_stage_ s = Some (mkInstance 0 (mkStage X X))
         ∧ events_ s = [EvCreateStage (mkBlock X true)].
Proof.
  split.
  - destruct (Init_entry_stage config_empty None) as [Hempty _].
    apply Hempty. reflexivity.
  - destruct (Init_entry_stage config_XY None) as [_ [_ Hentry]].
    destruct (Hentry X [Y]) as [b [s [Hi [Hin [Hty [Hb [Hc He]]]]]]].
    + reflexivity.
    + repeat constructor.
    + exists s. split; [exact Hi |].
      assert (s = started config_XY) as ->
        by (unfold started, fresh; rewrite Hi; reflexivity).
      assert (b = mkBlock X true) as ->
        by (vm_compute in Hb; injection Hb as <-; reflexivity).
      split; [exact Hc | exact He].
Defined.

(** C9 on a new controller and on one with a status and a factory call on
    record from earlier use.  The first cycle's frames differ, and leave the
    two [X] stages in different states; the answers are the same. *)
Lemma replay_is_deterministic_witness :
  statuses (started config_XY)
           [reply RUNNING NO_STAGE; reply FINISHED Y; reply FINISHED NO_STAGE]
  = statuses
      (create_stage (mkBlock X true)
         (before_entry_stage
            (mkScenario config_XY None ∅ None STATUS_DONE
                        [EvCreateStage (mkBlock Z true)])))
      [reply RUNNING Z; reply FINISHED Y; reply FINISHED NO_STAGE]
  ∧ visited (started config_XY)
            [reply RUNNING NO_STAGE; reply FINISHED Y; reply FINISHED NO_STAGE]
    = [Some X; Some Y; Some Y]
  ∧ current_stage_ (final (started config_XY) [reply RUNNING NO_STAGE])
    ≠ current_stage_ (final (started config_XY) [reply RUNNING Z]).
Proof.
  destruct (replay_is_deterministic
              (fresh config_XY)
              (mkScenario config_XY None ∅ None STATUS_DONE
                          [EvCreateStage (mkBlock Z true)])
              (started config_XY)
              (create_stage (mkBlock X true)
                 (before_entry_stage
                    (mkScenario config_XY None ∅ None STATUS_DONE
                                [EvCreateStage (mkBlock Z true)])))
              [reply RUNNING NO_STAGE; reply FINISHED Y; reply FINISHED NO_STAGE]
              [reply RUNNING Z; reply FINISHED Y; reply FINISHED NO_STAGE])
    as [_ [Hv [Hst _]]]; try reflexivity.
  split; [exact Hst |]. split; [reflexivity |].
  vm_compute. discriminate.
Defined.

(** C10, as the claim has it, fails: [Init] is an operation of the
    controller and has no guard against a second call.  On a controller
    whose handle a failed transition has emptied it builds the entry stage
    again, and the following cycles are processed as usual. *)
Lemma Init_restores_absent_stage :
  current_stage_ lost_handle = None
  ∧ ∃ s2, Init lost_handle = InitOk s2
          ∧ current_stage_ s2 = Some (mkInstance 2 (mkStage X X))
          ∧ statuses s2 [reply RUNNING NO_STAGE; reply FINISHED NO_STAGE]
            = [STATUS_PROCESSING; STATUS_DONE].
Proof.
  split; [reflexivity |].
  eexists. split; [vm_compute; reflexivity |]. split; reflexivity.
Qed.

(** C10 as amended: an entry stage the factory cannot build, a successor the factory
    cannot build, and two further cycles on the empty handle. *)
Lemma absent_stage_is_permanent_witness :
  (∃ s, Init (fresh config_unbuildable) = InitOk s ∧ current_stage_ s = None)
  ∧ current_stage_ (Process (started config_Y_unbuildable) tt (FINISHED, Y)).1.2 = None
  ∧ statuses (started config_unbuildable) [reply RUNNING NO_STAGE; reply FINISHED X]
    = [STATUS_UNKNOWN; STATUS_UNKNOWN]
  ∧ final (started config_unbuildable) [reply RUNNING NO_STAGE; reply FINISHED X]
    = started config_unbuildable.
Proof.
  destruct (@absent_stage_is_permanent block stage (option ScenarioType) unit script _ _ _)
    as [Hinit [Htrans Hperm]].
  split; [| split].
  - apply (Hinit (fresh config_unbuildable) X [] (mkBlock X false)).
    + reflexivity.
    + repeat constructor. exists (mkBlock X false). reflexivity.
    + reflexivity.
    + reflexivity.
  - apply (Htrans (started config_Y_unbuildable) (mkInstance 0 (mkStage X X)) tt
                  (FINISHED, Y) (mkStage X Y) (FINISHED, Y) (mkBlock Y false));
      try reflexivity; vm_compute; lia.
  - destruct (Hperm (started config_unbuildable)) as [_ Hrun]; [reflexivity |].
    destruct (Hrun [reply RUNNING NO_STAGE; reply FINISHED X]) as [Hst [_ [Hf _]]].
    split; [exact Hst | exact Hf].
Defined.

(** ** The further properties on scripted stages *)

(** X1 on two blocks for [X]: the later, buildable one is indexed and
    used. *)
Lemma Init_index_last_block_wins_witness :
  stage_config_map_ (started config_X_twice) !! X = Some (mkBlock X true)
  ∧ factory_calls (events_ (started config_X_twice)) = [mkBlock X true].
Proof.
  destruct (Init_index_last_block_wins config_X_twice None (started config_X_twice))
    as [Hidx (first & rest & b & Hd & Hb & Hf)].
  - reflexivity.
  - rewrite Hidx. split; reflexivity.
Defined.

(** X2 on declared stages [X, Z, Y] of which only [X] is configured: the
    error names [Z], not [Y]. *)
Lemma Init_names_first_missing_witness :
  Init (fresh config_XZY) = InitFatal (FatalNoConfig Z).
Proof.
  apply (proj2 (Init_names_first_missing (fresh config_XZY) Z)).
  exists [X], [Y]. split; [reflexivity |]. split; [| reflexivity].
  repeat constructor. exists (mkBlock X true). reflexivity.
Defined.

(** X6 on a failed construction after a cycle that recorded
    [STATUS_PROCESSING]: the call returns [STATUS_UNKNOWN], the record still
    says [STATUS_PROCESSING]. *)
Lemma recorded_status_witness :
  (Process (final (started config_Y_unbuildable) [reply RUNNING NO_STAGE])
           tt (FINISHED, Y)).1.1 = STATUS_UNKNOWN
  ∧ scenario_status_
      (Process (final (started config_Y_unbuildable) [reply RUNNING NO_STAGE])
               tt (FINISHED, Y)).1.2 = STATUS_PROCESSING.
Proof.
  destruct (recorded_status
              (final (started config_Y_unbuildable) [reply RUNNING NO_STAGE])
              tt (FINISHED, Y)) as [_ Hnone].
  destruct Hnone as [Hst Hrec]; [reflexivity |].
  split; [exact Hst | rewrite Hrec; reflexivity].
Defined.

(** X7 on an entry stage of the sentinel type. *)
Lemma sentinel_stage_is_done_witness :
  statuses (started config_sentinel) [reply RUNNING NO_STAGE; reply FINISHED X]
  = [STATUS_DONE; STATUS_DONE]
  ∧ events_ (final (started config_sentinel)
                   [reply RUNNING NO_STAGE; reply FINISHED X])
    = [EvCreateStage (mkBlock NO_STAGE true)].
Proof.
  destruct (sentinel_stage_is_done
              (started config_sentinel) (mkInstance 0 (mkStage NO_STAGE NO_STAGE))
              [reply RUNNING NO_STAGE; reply FINISHED X])
    as (Hst & _ & He & _); [reflexivity | reflexivity |].
  split; [exact Hst | rewrite He; reflexivity].
Defined.

(** X8 on a stage that is still running after two cycles. *)
Lemma running_stage_keeps_processing_witness :
  factory_calls (events_ (final (started config_XY)
                                [reply RUNNING NO_STAGE; reply RUNNING NO_STAGE]))
  = [mkBlock X true]
  ∧ stage_calls (events_ (final (started config_XY)
                                [reply RUNNING NO_STAGE; reply RUNNING NO_STAGE]))
    = [0; 0].
Proof.
  destruct (running_stage_keeps_processing
              (started config_XY) (mkInstance 0 (mkStage X X))
              [reply RUNNING NO_STAGE; reply RUNNING NO_STAGE])
    as (_ & Hf & Hs).
  - reflexivity.
  - vm_compute. lia.
  - repeat constructor.
  - split; [exact Hf | exact Hs].
Defined.

(** X9 on a stage that returns [ERROR] and then a value the [switch] does
    not name. *)
Lemma failing_stage_keeps_unknown_witness :
  factory_calls (events_ (final (started config_XY)
                                [reply ERROR NO_STAGE; reply (UNEXPECTED 2) NO_STAGE]))
  = [mkBlock X true]
  ∧ stage_calls (events_ (final (started config_XY)
                                [reply ERROR NO_STAGE; reply (UNEXPECTED 2) NO_STAGE]))
    = [0; 0].
Proof.
  destruct (failing_stage_keeps_unknown
              (started config_XY) (mkInstance 0 (mkStage X X))
              [reply ERROR NO_STAGE; reply (UNEXPECTED 2) NO_STAGE])
    as (_ & Hf & Hs).
  - reflexivity.
  - vm_compute. lia.
  - constructor; [split; [left | ]; reflexivity |].
    constructor; [split; [right; exists 2%Z | ]; reflexivity |].
    constructor.
  - split; [exact Hf | exact Hs].
Defined.

(** X10 on a controller that has moved on to [Y]: a second [Init] builds
    [X] again. *)
Lemma Init_again_witness :
  ∃ s2, Init (final (started config_XY) [reply FINISHED Y]) = InitOk s2
        ∧ factory_calls (events_ s2)
          = [mkBlock X true; mkBlock Y true; mkBlock X true].
Proof.
  destruct (Init_again (fresh config_XY) (started config_XY) [reply FINISHED Y])
    as (b & s2 & Hi & _ & _ & _ & Hb & Hf); [reflexivity |].
  exists s2. split; [exact Hi |].
  assert (b = mkBlock X true) as ->
    by (vm_compute in Hb; injection Hb as <-; reflexivity).
  rewrite Hf. reflexivity.
Defined.

(** X11 on the scripted collaborators, which respect stage types. *)
Lemma current_stage_stays_configured_witness :
  index_keyed (started config_XY)
  ∧ current_stage_configured (started config_XY)
  ∧ Forall (λ out, index_keyed out.2 ∧ current_stage_configured out.2)
           (run (started config_XY) [reply FINISHED Y; reply RUNNING NO_STAGE]).
Proof.
  apply (current_stage_stays_configured (fresh config_XY)).
  - intros [t []] inj obj; cbn; intros Hc; [injection Hc as <-; reflexivity | discriminate].
  - intros obj pt fr. reflexivity.
  - intros t b Hl. cbn in Hl. rewrite lookup_empty in Hl. discriminate.
  - reflexivity.
Defined.

(** X12 on a stage that announces the sentinel. *)
Lemma done_only_by_sentinel_witness :
  (Process (started config_XY) tt (FINISHED, NO_STAGE)).1.1 = STATUS_DONE.
Proof.
  apply (proj2 (done_only_by_sentinel (started config_XY) tt (FINISHED, NO_STAGE)
                  ltac:(intros [t []] inj obj; cbn; intros Hc;
                        [injection Hc as <-; reflexivity | discriminate])
                  ltac:(intros obj pt fr; reflexivity)
                  ltac:(intros t b Hl;
                        change (stage_config_map_ (started config_XY))
                          with (build_stage_config_map
                                  ∅ [mkBlock X true; mkBlock Y true]) in Hl;
                        apply build_stage_config_map_lookup in Hl
                          as [Hl | [_ Hl]];
                        [rewrite lookup_empty in Hl; discriminate | exact Hl]))).
  exists (mkInstance 0 (mkStage X X)). split; [reflexivity |].
  right. split; reflexivity.
Defined.
